(** * Medicaid payments: grouped IQR outlier detection

    A shallow embedding of [medicaid_outliers-stream.py] (the streaming,
    four-metric detector and its driver loop) and of
    [medicaid_outliers.py] (the chunked, single-metric detector).

    Conventions of the embedding:
    - a CSV record (a Python [dict] of strings) is a [gmap string string];
    - the dictionaries live in a store ([heap]) and a group is a list of
      references into it, because the streaming detector writes the key
      [OUTLIER_REASONS] into the caller's dictionaries;
    - pandas numbers are the type [fval]: not-a-number, the two
      infinities, or a finite value.  Finite values are exact rationals
      ([Qc]): the streaming detector is modelled without binary64
      rounding.  The module [Binary64] evaluates the quantiles, the
      fence and the chunked detector on the kernel's binary64 floats,
      with numpy's roundings;
    - Python exceptions are the [Raise] branch of [result];
    - [pd.to_numeric(..., errors='coerce')] on one cell is library code:
      it is a parameter of the development ([to_numeric]). *)

From Stdlib Require Import Ascii QArith Qcanon Qround Floats.
From stdpp Require Import gmap strings list sorting functions.

Local Open Scope Qc_scope.

(** ** Numbers *)

Inductive fval : Type :=
  | NaN
  | PInf
  | NInf
  | Fin (q : Qc).

Definition qz (z : Z) : Qc := Q2Qc (inject_Z z).
Definition qd (n : Z) (d : positive) : Qc := Q2Qc (n # d).

Definition notna (x : fval) : bool :=
  match x with NaN => false | _ => true end.

Definition fneg (x : fval) : fval :=
  match x with
  | NaN => NaN
  | PInf => NInf
  | NInf => PInf
  | Fin q => Fin (- q)
  end.

Definition fadd (x y : fval) : fval :=
  match x, y with
  | NaN, _ | _, NaN => NaN
  | PInf, NInf | NInf, PInf => NaN
  | PInf, _ | _, PInf => PInf
  | NInf, _ | _, NInf => NInf
  | Fin a, Fin b => Fin (a + b)
  end.

Definition fsub (x y : fval) : fval := fadd x (fneg y).

(** The sign of an infinity scaled by a finite factor. *)
Definition scale_inf (pos : bool) (q : Qc) : fval :=
  match q ?= 0 with
  | Eq => NaN
  | Gt => if pos then PInf else NInf
  | Lt => if pos then NInf else PInf
  end.

Definition fmul (x y : fval) : fval :=
  match x, y with
  | NaN, _ | _, NaN => NaN
  | PInf, PInf | NInf, NInf => PInf
  | PInf, NInf | NInf, PInf => NInf
  | PInf, Fin q | Fin q, PInf => scale_inf true q
  | NInf, Fin q | Fin q, NInf => scale_inf false q
  | Fin a, Fin b => Fin (a * b)
  end.

(** [x / y] for a divisor that is not zero. *)
Definition fdiv (x y : fval) : fval :=
  match x, y with
  | NaN, _ | _, NaN => NaN
  | (PInf | NInf), (PInf | NInf) => NaN
  | PInf, Fin q => match q ?= 0 with Lt => NInf | _ => PInf end
  | NInf, Fin q => match q ?= 0 with Lt => PInf | _ => NInf end
  | Fin _, (PInf | NInf) => Fin 0
  | Fin a, Fin b => Fin (a / b)
  end.

(** [x > y]; every comparison with not-a-number is false. *)
Definition fgtb (x y : fval) : bool :=
  match x, y with
  | NaN, _ | _, NaN => false
  | PInf, PInf => false
  | PInf, _ => true
  | NInf, _ => false
  | Fin _, PInf => false
  | Fin _, NInf => true
  | Fin a, Fin b => match b ?= a with Lt => true | _ => false end
  end.

(** [x <= y] as the sort orders the values: missing values last. *)
Definition fleb (x y : fval) : bool :=
  match x, y with
  | _, NaN => true
  | NaN, _ => false
  | NInf, _ => true
  | _, PInf => true
  | PInf, _ => false
  | Fin _, NInf => false
  | Fin a, Fin b => match a ?= b with Gt => false | _ => true end
  end.

Definition fle (x y : fval) : Prop := fleb x y.

#[global] Instance fle_dec : RelDecision fle.
Proof. intros x y. unfold fle. apply _. Defined.

(** [x == 0] *)
Definition is_zero (x : fval) : bool :=
  match x with
  | Fin q => match q ?= 0 with Eq => true | _ => false end
  | _ => false
  end.

(** ** Exceptions *)

Inductive exn : Type :=
  | KeyError (k : string)
  | IndexError
  | ZeroDivisionError
  | TypeError
  | ValueError.

Inductive result (A : Type) : Type :=
  | Ok (a : A)
  | Raise (e : exn).
Arguments Ok {A} a.
Arguments Raise {A} e.

#[global] Instance result_ret : MRet result := λ A a, Ok a.
#[global] Instance result_bind : MBind result := λ A B k m,
  match m with
  | Ok a => k a
  | Raise e => Raise e
  end.

(** Python's [/] on numbers: a zero divisor raises. *)
Definition truediv (x y : fval) : result fval :=
  if is_zero y then Raise ZeroDivisionError else Ok (fdiv x y).

(** ** [Series.quantile], linear interpolation

    pandas drops the missing values and hands the rest to numpy's
    percentile with [method='linear']: the value at the virtual index
    [(n - 1) * q] of the sorted array, interpolated between its two
    neighbours. *)

Definition lerp (a b : fval) (t : Qc) : fval :=
  let diff_b_a := fsub b a in
  match t ?= qd 1 2 with
  | Lt => fadd a (fmul diff_b_a (Fin t))
  | _ => fsub b (fmul diff_b_a (Fin (1 - t)))
  end.

(** The percentile of a sorted array without missing values. *)
Definition interpolate (arr : list fval) (q : Qc) : fval :=
  match length arr with
  | O => NaN
  | S m =>
      let virtual_index := qz (Z.of_nat m) * q in
      let previous_index := Z.to_nat (Qfloor virtual_index) in
      let next_index := Nat.min (previous_index + 1) m in
      let gamma := virtual_index - qz (Qfloor virtual_index) in
      lerp (nth previous_index arr NaN) (nth next_index arr NaN) gamma
  end.

Definition quantile (series : list fval) (q : Qc) : fval :=
  interpolate (merge_sort fle (filter (λ x, notna x = true) series)) q.

(** ** The nested function [get_upper_bound] *)

Definition get_upper_bound (series : list fval) : fval :=
  if (length series <? 4)%nat then PInf
  else
    let q1 := quantile series (qd 1 4) in
    let q3 := quantile series (qd 3 4) in
    let iqr := fsub q3 q1 in
    fadd q3 (fmul (Fin (qd 3 2)) iqr).

Local Close Scope Qc_scope.

(** ** Records, the store and data frames *)

Abbreviation row := (gmap string string).

Abbreviation loc := nat.

(** The store of dictionaries: every reference holds a record. *)
Abbreviation heap := (loc → row).

(** One line of the frame after the numeric coercion: its index label
    (the position of the record in [group_rows]) and the three numeric
    columns. *)
Record nrow : Type := {
  idx : nat;
  TOTAL_PAID : fval;
  TOTAL_UNIQUE_BENEFICIARIES : fval;
  TOTAL_CLAIMS : fval
}.

(** One line of the frame once the two derived columns are added. *)
Record mrow : Type := {
  base : nrow;
  PAID_PER_BENEF : fval;
  PAID_PER_CLAIM : fval
}.

(** The dictionary [bounds]. *)
Record bounds : Type := {
  high_total_paid : fval;
  high_paid_per_benef : fval;
  high_paid_per_claim : fval;
  high_unique_benef : fval
}.

(** ** [safe_ratio] *)

Definition safe_ratio (numerator denominator : fval) : result fval :=
  if negb (is_zero denominator) then truediv numerator denominator
  else Ok NaN.

(** ** [detect_outliers], streaming variant *)

Section Detector.

(** [pd.to_numeric(..., errors='coerce')] on the text of one cell. *)
Variable to_numeric : string → fval.

(** [pd.DataFrame(group_rows)]: a snapshot of the dictionaries. *)
Definition DataFrame (h : heap) (group_rows : list loc) : list row :=
  map h group_rows.

(** A frame built from dictionaries has a column for a key as soon as
    one of them has the key; [df[col]] raises otherwise. *)
Definition has_column (frame : list row) (col : string) : bool :=
  existsb (λ r, bool_decide (is_Some (r !! col))) frame.

Definition require_column (frame : list row) (col : string) : result unit :=
  if has_column frame col then Ok () else Raise (KeyError col).

(** A dictionary without the key leaves a missing value in the column. *)
Definition numeric_cell (r : row) (col : string) : fval :=
  match r !! col with
  | Some s => to_numeric s
  | None => NaN
  end.

(** [for col in numeric_cols: df[col] = pd.to_numeric(df[col], ...)] *)
Definition coerce_numeric (frame : list row) : result (list nrow) :=
  _ ← require_column frame "TOTAL_PAID";
  _ ← require_column frame "TOTAL_UNIQUE_BENEFICIARIES";
  _ ← require_column frame "TOTAL_CLAIMS";
  Ok (imap (λ i r,
        {| idx := i;
           TOTAL_PAID := numeric_cell r "TOTAL_PAID";
           TOTAL_UNIQUE_BENEFICIARIES := numeric_cell r "TOTAL_UNIQUE_BENEFICIARIES";
           TOTAL_CLAIMS := numeric_cell r "TOTAL_CLAIMS" |}) frame).

(** [df.dropna(subset=numeric_cols)] *)
Definition valid_numeric (r : nrow) : bool :=
  notna (TOTAL_PAID r) && notna (TOTAL_UNIQUE_BENEFICIARIES r)
  && notna (TOTAL_CLAIMS r).

Definition dropna_numeric (df : list nrow) : list nrow :=
  filter (λ r, valid_numeric r = true) df.

(** The two [df.apply(..., axis=1)] passes. *)
Definition add_paid_per_benef (r : nrow) : result (nrow * fval) :=
  v ← safe_ratio (TOTAL_PAID r) (TOTAL_UNIQUE_BENEFICIARIES r);
  Ok (r, v).

Definition add_paid_per_claim (rb : nrow * fval) : result mrow :=
  v ← safe_ratio (TOTAL_PAID rb.1) (TOTAL_CLAIMS rb.1);
  Ok {| base := rb.1; PAID_PER_BENEF := rb.2; PAID_PER_CLAIM := v |}.

Definition derive_metrics (df : list nrow) : result (list mrow) :=
  df1 ← mapM add_paid_per_benef df;
  mapM add_paid_per_claim df1.

(** [df.dropna(subset=['PAID_PER_BENEF', 'PAID_PER_CLAIM'])] *)
Definition valid_ratios (r : mrow) : bool :=
  notna (PAID_PER_BENEF r) && notna (PAID_PER_CLAIM r).

Definition dropna_ratios (df : list mrow) : list mrow :=
  filter (λ r, valid_ratios r = true) df.

(** Lines 17 to 46: the frames [df] and [df_clean] with which the
    function goes on to the thresholds, or [None] where it leaves
    early with [return []]. *)
Definition prepare_frames (h : heap) (group_rows : list loc)
    : result (option (list mrow * list mrow)) :=
  if (length group_rows <? 4)%nat then Ok None
  else
    df ← coerce_numeric (DataFrame h group_rows);
    let df := dropna_numeric df in
    if (length df <? 4)%nat then Ok None
    else
      df ← derive_metrics df;
      let df_clean := dropna_ratios df in
      if (length df_clean <? 4)%nat then Ok None
      else Ok (Some (df, df_clean)).

(** Lines 60 to 65: the four calls of [get_upper_bound]. *)
Definition compute_bounds (df_clean : list mrow) : bounds :=
  {| high_total_paid := get_upper_bound (map (λ r, TOTAL_PAID (base r)) df_clean);
     high_paid_per_benef := get_upper_bound (map PAID_PER_BENEF df_clean);
     high_paid_per_claim := get_upper_bound (map PAID_PER_CLAIM df_clean);
     high_unique_benef :=
       get_upper_bound (map (λ r, TOTAL_UNIQUE_BENEFICIARIES (base r)) df_clean) |}.

(** One test of the flagging loop: [pd.notna(v) and v > bound]. *)
Definition exceeds (v bound : fval) : bool := notna v && fgtb v bound.

Definition flag_if (b : bool) (name : string) : list string :=
  if b then [name] else [].

(** The list [flags] built for one line of [df]. *)
Definition flags_of (b : bounds) (r : mrow) : list string :=
  flag_if (exceeds (TOTAL_PAID (base r)) (high_total_paid b)) "high_total_paid"
  ++ flag_if (exceeds (PAID_PER_BENEF r) (high_paid_per_benef b)) "high_paid_per_benef"
  ++ flag_if (exceeds (PAID_PER_CLAIM r) (high_paid_per_claim b)) "high_paid_per_claim"
  ++ flag_if (exceeds (TOTAL_UNIQUE_BENEFICIARIES (base r)) (high_unique_benef b))
       "high_unique_beneficiaries".

(** [original_row['OUTLIER_REASONS'] = ','.join(flags)] *)
Definition annotate (flags : list string) (r : row) : row :=
  <["OUTLIER_REASONS" := String.concat "," flags]> r.

(** The loop [for idx in df.index], threading the store and
    [flagged_rows]. *)
Fixpoint flag_loop (b : bounds) (group_rows : list loc) (df : list mrow)
    (h : heap) (flagged_rows : list loc) : result (heap * list loc) :=
  match df with
  | [] => Ok (h, flagged_rows)
  | r :: df =>
      match flags_of b r with
      | [] => flag_loop b group_rows df h flagged_rows
      | flags =>
          match group_rows !! idx (base r) with
          | None => Raise IndexError
          | Some original_row =>
              flag_loop b group_rows df
                (<[original_row := annotate flags (h original_row)]> h)
                (flagged_rows ++ [original_row])
          end
      end
  end.

Definition detect_outliers (h : heap) (group_rows : list loc)
    : result (heap * list loc) :=
  frames ← prepare_frames h group_rows;
  match frames with
  | None => Ok (h, [])
  | Some (df, df_clean) =>
      flag_loop (compute_bounds df_clean) group_rows df h []
  end.

End Detector.

(** ** The driver loop of [main], streaming variant *)

Record driver : Type := {
  outlier_rows : list loc;
  current_group_rows : list loc;
  current_key : option (string * string);
  total_outliers : nat;
  total_rows_processed : nat
}.

(** What [main] leaves behind: the rows handed to the CSV writer
    ([None] when it returns before opening the output file) and the
    two counts it reports. *)
Record report : Type := {
  written : option (list row);
  rows_processed : nat;
  outliers_found : nat
}.

(** The output file: its header line and one line of cells per row. *)
Record csv_output : Type := {
  header : list string;
  lines : list (list string)
}.

Section Driver.

Variable to_numeric : string → fval.

(** [(row['HCPCS_CODE'], row['CLAIM_FROM_MONTH'])] *)
Definition row_key (r : row) : result (string * string) :=
  match r !! "HCPCS_CODE" with
  | None => Raise (KeyError "HCPCS_CODE")
  | Some code =>
      match r !! "CLAIM_FROM_MONTH" with
      | None => Raise (KeyError "CLAIM_FROM_MONTH")
      | Some month => Ok (code, month)
      end
  end.

Definition initial : driver :=
  {| outlier_rows := [];
     current_group_rows := [];
     current_key := None;
     total_outliers := 0;
     total_rows_processed := 0 |}.

(** [outliers = detect_outliers(current_group_rows)] and the
    [if outliers:] block that follows it, in both places. *)
Definition collect (h : heap) (st : driver) : result (heap * driver) :=
  '(h', outliers) ← detect_outliers to_numeric h (current_group_rows st);
  match outliers with
  | [] => Ok (h', st)
  | _ =>
      Ok (h', {| outlier_rows := outlier_rows st ++ outliers;
                 current_group_rows := current_group_rows st;
                 current_key := current_key st;
                 total_outliers := total_outliers st + length outliers;
                 total_rows_processed := total_rows_processed st |})
  end.

Definition reset_group (st : driver) : driver :=
  {| outlier_rows := outlier_rows st;
     current_group_rows := [];
     current_key := current_key st;
     total_outliers := total_outliers st;
     total_rows_processed := total_rows_processed st |}.

(** The body of [for row in reader]. *)
Definition step (h : heap) (st : driver) (r : loc) : result (heap * driver) :=
  key ← row_key (h r);
  '(h, st) ←
    (if bool_decide (Some key ≠ current_key st)
        && bool_decide (current_group_rows st ≠ [])
     then '(h, st) ← collect h st; Ok (h, reset_group st)
     else Ok (h, st));
  Ok (h, {| outlier_rows := outlier_rows st;
            current_group_rows := current_group_rows st ++ [r];
            current_key := Some key;
            total_outliers := total_outliers st;
            total_rows_processed := total_rows_processed st + 1 |}).

Fixpoint loop (h : heap) (st : driver) (reader : list loc)
    : result (heap * driver) :=
  match reader with
  | [] => Ok (h, st)
  | r :: reader => '(h, st) ← step h st r; loop h st reader
  end.

(** [# Process final group] *)
Definition final_group (h : heap) (st : driver) : result (heap * driver) :=
  if bool_decide (current_group_rows st ≠ []) then collect h st
  else Ok (h, st).

(** The loop and the flush: the state in which [main] reaches its
    report. *)
Definition run (h : heap) (reader : list loc) : result (heap * driver) :=
  '(h, st) ← loop h initial reader;
  final_group h st.

(** [main] from the loop on: the rows it hands to the CSV writer and
    the counts it prints.  The header read before the loop and the
    writer itself are in [main_csv] below. *)
Definition main (h : heap) (reader : list loc) : result (heap * report) :=
  '(h, st) ← run h reader;
  Ok (h, {| written :=
              if (total_outliers st =? 0)%nat then None
              else Some (map h (outlier_rows st));
            rows_processed := total_rows_processed st;
            outliers_found := total_outliers st |}).

(** [fieldnames = reader.fieldnames + ['OUTLIER_REASONS']], where
    [reader.fieldnames] is [None] for an empty file. *)
Definition output_fieldnames (reader_fieldnames : option (list string))
    : result (list string) :=
  match reader_fieldnames with
  | None => Raise TypeError
  | Some names => Ok (names ++ ["OUTLIER_REASONS"])
  end.

(** [DictWriter._dict_to_list]: a key outside the field names raises,
    a field the dictionary lacks is written as the empty text. *)
Definition dict_to_list (fieldnames : list string) (rowdict : row)
    : result (list string) :=
  if bool_decide (dom rowdict ⊆ list_to_set (C := gset string) fieldnames)
  then Ok (map (λ key, default "" (rowdict !! key)) fieldnames)
  else Raise ValueError.

(** [main] with the header of the input and the output file. *)
Definition main_csv (reader_fieldnames : option (list string)) (h : heap)
    (reader : list loc) : result (heap * report * option csv_output) :=
  fieldnames ← output_fieldnames reader_fieldnames;
  '(h, rep) ← main h reader;
  match written rep with
  | None => Ok (h, rep, None)
  | Some outlier_rows =>
      rows ← mapM (dict_to_list fieldnames) outlier_rows;
      Ok (h, rep, Some {| header := fieldnames; lines := rows |})
  end.

End Driver.

(** ** [detect_outliers], chunked variant

    The frame is already typed by [read_csv]; the function reads only
    its [TOTAL_PAID] column, so the rows are kept abstract. *)

Module Chunked.
Section Chunked.

Context {A : Type}.
Variable total_paid : A → fval.

Definition upper_bound (group : list A) : fval :=
  let Q1 := quantile (map total_paid group) (qd 1 4) in
  let Q3 := quantile (map total_paid group) (qd 3 4) in
  let IQR := fsub Q3 Q1 in
  fadd Q3 (fmul (Fin (qd 3 2)) IQR).

Definition detect_outliers (group : list A) : list A :=
  if (length group <? 4)%nat then []
  else filter (λ r, fgtb (total_paid r) (upper_bound group) = true) group.

End Chunked.
End Chunked.

(** ** The quantiles and the chunked detector in binary64

    The same functions on the numbers pandas holds: every operation
    rounds as numpy's does.  [quantile] is [Series.quantile] with its
    default linear interpolation, [get_upper_bound] the nested function
    of the streaming detector, [upper_bound] and [detect_outliers] the
    chunked detector. *)

Module Binary64.

Definition of_nat (n : nat) : float :=
  PrimFloat.of_uint63 (Uint63.of_Z (Z.of_nat n)).

Definition notna (x : float) : bool := negb (PrimFloat.is_nan x).

Definition le (x y : float) : Prop := PrimFloat.leb x y = true.

#[global] Instance le_dec : RelDecision le.
Proof. intros x y. unfold le. apply _. Defined.

(** numpy's [_lerp] *)
Definition lerp (a b t : float) : float :=
  let diff_b_a := (b - a)%float in
  if (t <? 0.5)%float then (a + diff_b_a * t)%float
  else (b - diff_b_a * (1 - t))%float.

(** The floor of a virtual index between 0 and [m]. *)
Definition floor_index (virtual_index : float) (m : nat) : nat :=
  length (filter (λ k, PrimFloat.leb (of_nat k) virtual_index = true) (seq 1 m)).

Definition interpolate (arr : list float) (q : float) : float :=
  match length arr with
  | O => PrimFloat.nan
  | S m =>
      let virtual_index := (of_nat m * q)%float in
      let previous_index := floor_index virtual_index m in
      let next_index := Nat.min (previous_index + 1) m in
      let gamma := (virtual_index - of_nat previous_index)%float in
      lerp (nth previous_index arr PrimFloat.nan) (nth next_index arr PrimFloat.nan)
        gamma
  end.

Definition quantile (series : list float) (q : float) : float :=
  interpolate (merge_sort le (filter (λ x, notna x = true) series)) q.

Definition get_upper_bound (series : list float) : float :=
  if (length series <? 4)%nat then PrimFloat.infinity
  else
    let q1 := quantile series 0.25 in
    let q3 := quantile series 0.75 in
    let iqr := (q3 - q1)%float in
    (q3 + 1.5 * iqr)%float.

Section Chunked.

Context {A : Type}.
Variable total_paid : A → float.

Definition upper_bound (group : list A) : float :=
  let Q1 := quantile (map total_paid group) 0.25 in
  let Q3 := quantile (map total_paid group) 0.75 in
  let IQR := (Q3 - Q1)%float in
  (Q3 + 1.5 * IQR)%float.

Definition detect_outliers (group : list A) : list A :=
  if (length group <? 4)%nat then []
  else filter (λ r, PrimFloat.ltb (upper_bound group) (total_paid r) = true) group.

End Chunked.

(** The payments of the literal scenario. *)
Definition six_payments : list float := [10; 12; 13; 14; 15; 100]%float.

(** Three payments next to 1e16, where neighbouring binary64 numbers
    are 2 apart. *)
Definition ex_three_large : list float :=
  [1e16; 1e16; 10000000000000002]%float.

End Binary64.

(** ** A coercion to run the model with

    [parse_number] reads plain decimal numerals (an optional minus
    sign, digits, an optional fraction) and maps every other text to
    the missing value.  It agrees with [pd.to_numeric] on the texts of
    the examples below: plain numerals, the empty text and a letter. *)

Definition digit (c : Ascii.ascii) : option Z :=
  let n := Ascii.nat_of_ascii c in
  if (48 <=? n)%nat && (n <=? 57)%nat then Some (Z.of_nat (n - 48)) else None.

Fixpoint parse_digits (acc : Z) (s : string) : option (Z * string) :=
  match s with
  | String c s' =>
      match digit c with
      | Some d => parse_digits (10 * acc + d) s'
      | None => Some (acc, s)
      end
  | EmptyString => Some (acc, s)
  end.

Definition parse_unsigned (s : string) : option Qc :=
  match s with
  | EmptyString => None
  | String c _ =>
      match digit c with
      | None => None
      | Some _ =>
          match parse_digits 0 s with
          | Some (n, EmptyString) => Some (qz n)
          | Some (n, String "."%char frac) =>
              match frac, parse_digits 0 frac with
              | String _ _, Some (m, EmptyString) =>
                  Some (qz n + Q2Qc (m # Pos.of_nat (10 ^ String.length frac)))%Qc
              | _, _ => None
              end
          | _ => None
          end
      end
  end.

Definition parse_number (s : string) : fval :=
  match s with
  | String "-"%char s' =>
      match parse_unsigned s' with Some q => Fin (- q)%Qc | None => NaN end
  | _ => match parse_unsigned s with Some q => Fin q | None => NaN end
  end.

(** A store holding the given dictionaries at references 0, 1, ... *)
Definition heap_of (rows : list row) : heap :=
  λ l, default ∅ (rows !! l).

Definition claim_row (code month paid benef claims : string) : row :=
  <["HCPCS_CODE" := code]> (<["CLAIM_FROM_MONTH" := month]>
  (<["TOTAL_PAID" := paid]> (<["TOTAL_UNIQUE_BENEFICIARIES" := benef]>
  (<["TOTAL_CLAIMS" := claims]> ∅)))).

(** Six claims of one code and month; the fourth has no beneficiary and
    the last an unreadable claim count. *)
Definition ex_mixed : list row := [
  claim_row "A" "2024-01" "10" "1" "1";
  claim_row "A" "2024-01" "12" "1" "1";
  claim_row "A" "2024-01" "13.0" "1" "1";
  claim_row "A" "2024-01" "14" "0" "1";
  claim_row "A" "2024-01" "15" "1" "1";
  claim_row "A" "2024-01" "100" "1" "1";
  claim_row "A" "2024-01" "100" "1" "x" ].

(** Five ordinary claims and a large one without beneficiaries. *)
Definition ex_zero_benef : list row := [
  claim_row "A" "2024-01" "10" "1" "1";
  claim_row "A" "2024-01" "12" "1" "1";
  claim_row "A" "2024-01" "13" "1" "1";
  claim_row "A" "2024-01" "14" "1" "1";
  claim_row "A" "2024-01" "15" "1" "1";
  claim_row "A" "2024-01" "1000" "0" "1" ].

(** The six payments 10, 12, 13, 14, 15 and 100, one beneficiary and one
    claim each. *)
Definition ex_six : list row := [
  claim_row "A" "2024-01" "10" "1" "1";
  claim_row "A" "2024-01" "12" "1" "1";
  claim_row "A" "2024-01" "13" "1" "1";
  claim_row "A" "2024-01" "14" "1" "1";
  claim_row "A" "2024-01" "15" "1" "1";
  claim_row "A" "2024-01" "100" "1" "1" ].

(** The same six records when the input already has a column named
    [OUTLIER_REASONS]. *)
Definition ex_rerun : list row :=
  map (insert "OUTLIER_REASONS" "checked") ex_six.

(** A sorted input of two groups; the second, under code B, ends the
    input and holds one large payment. *)
Definition ex_two_groups : list row :=
  ex_six ++ [
  claim_row "B" "2024-01" "1" "1" "1";
  claim_row "B" "2024-01" "2" "1" "1";
  claim_row "B" "2024-01" "3" "1" "1";
  claim_row "B" "2024-01" "4" "1" "1";
  claim_row "B" "2024-01" "5" "1" "1";
  claim_row "B" "2024-01" "60" "1" "1" ].

(** Six claims with the same payment; the last one bills it in a single
    claim where the others need ten. *)
Definition ex_one_claim : list row := [
  claim_row "A" "2024-01" "10" "1" "10";
  claim_row "A" "2024-01" "10" "1" "10";
  claim_row "A" "2024-01" "10" "1" "10";
  claim_row "A" "2024-01" "10" "1" "10";
  claim_row "A" "2024-01" "10" "1" "10";
  claim_row "A" "2024-01" "10" "1" "1" ].

(** Five claims with the same payment, beneficiaries and claims. *)
Definition ex_identical : list row :=
  replicate 5 (claim_row "A" "2024-01" "20" "2" "4").



(** Five claims of which only three are fully valid. *)
Definition ex_three_valid : list row := [
  claim_row "A" "2024-01" "10" "1" "1";
  claim_row "A" "2024-01" "12" "" "1";
  claim_row "A" "2024-01" "13" "1" "1";
  claim_row "A" "2024-01" "5000" "1" "0";
  claim_row "A" "2024-01" "15" "1" "1" ].

(** ** Definitions used to state the properties *)

(** The value [safe_ratio] computes. *)
Definition ratio (numerator denominator : fval) : fval :=
  if is_zero denominator then NaN else fdiv numerator denominator.

(** The interquartile fence, without the guard on the length. *)
Definition upper_fence (series : list fval) : fval :=
  fadd (quantile series (qd 3 4))
    (fmul (Fin (qd 3 2)) (fsub (quantile series (qd 3 4)) (quantile series (qd 1 4)))).

(** A record that carries the three numeric fields. *)
Definition has_numeric_fields (r : row) : Prop :=
  is_Some (r !! "TOTAL_PAID")
  ∧ is_Some (r !! "TOTAL_UNIQUE_BENEFICIARIES")
  ∧ is_Some (r !! "TOTAL_CLAIMS").

(** The driver state once a batch of outliers is taken in. *)
Definition extend (st : driver) (outliers : list loc) : driver :=
  {| outlier_rows := outlier_rows st ++ outliers;
     current_group_rows := current_group_rows st;
     current_key := current_key st;
     total_outliers := total_outliers st + length outliers;
     total_rows_processed := total_rows_processed st |}.

(** The driver state once the rows of a group are buffered under
    their key. *)
Definition buffered (st : driver) (key : string * string) (group : list loc)
    : driver :=
  {| outlier_rows := outlier_rows st;
     current_group_rows := group;
     current_key := Some key;
     total_outliers := total_outliers st;
     total_rows_processed := total_rows_processed st + length group |}.

(** The payments of the literal scenario. *)
Definition six_payments : list fval :=
  [Fin (qz 10); Fin (qz 12); Fin (qz 13); Fin (qz 14); Fin (qz 15); Fin (qz 100)].

(** The flag names in the order the loop tests them. *)
Definition check_order : list string :=
  ["high_total_paid"; "high_paid_per_benef"; "high_paid_per_claim";
   "high_unique_beneficiaries"].

Section Frames.

Variable to_numeric : string → fval.

Definition coerce_row (i : nat) (r : row) : nrow :=
  {| idx := i;
     TOTAL_PAID := numeric_cell to_numeric r "TOTAL_PAID";
     TOTAL_UNIQUE_BENEFICIARIES :=
       numeric_cell to_numeric r "TOTAL_UNIQUE_BENEFICIARIES";
     TOTAL_CLAIMS := numeric_cell to_numeric r "TOTAL_CLAIMS" |}.

Definition with_ratios (r : nrow) : mrow :=
  {| base := r;
     PAID_PER_BENEF := ratio (TOTAL_PAID r) (TOTAL_UNIQUE_BENEFICIARIES r);
     PAID_PER_CLAIM := ratio (TOTAL_PAID r) (TOTAL_CLAIMS r) |}.

(** The metrics of the record at position [i] of the group. *)
Definition metrics (i : nat) (r : row) : mrow := with_ratios (coerce_row i r).

(** The records that survive the numeric coercion, with their
    derived ratios: the frame the flagging loop walks. *)
Definition frame_df (h : heap) (group_rows : list loc) : list mrow :=
  map with_ratios (dropna_numeric (imap coerce_row (DataFrame h group_rows))).

(** The records that also have both ratios: the frame the thresholds
    are computed on. *)
Definition frame_clean (h : heap) (group_rows : list loc) : list mrow :=
  dropna_ratios (frame_df h group_rows).

(** The three numeric columns exist in the frame. *)
Definition numeric_columns (frame : list row) : bool :=
  has_column frame "TOTAL_PAID"
  && has_column frame "TOTAL_UNIQUE_BENEFICIARIES"
  && has_column frame "TOTAL_CLAIMS".

(** A record with valid numeric fields and valid derived ratios. *)
Definition fully_valid (r : row) : bool :=
  valid_numeric (coerce_row 0 r) && valid_ratios (metrics 0 r).

(** The flags of the record at position [i] of a group: the list the
    loop builds for its line; no flag where the function returns before
    the loop or the record has no line in the loop's frame. *)
Definition record_flags (h : heap) (group_rows : list loc) (i : nat) (l : loc)
    : list string :=
  match prepare_frames to_numeric h group_rows with
  | Ok (Some (_, df_clean)) =>
      if valid_numeric (coerce_row i (h l))
      then flags_of (compute_bounds df_clean) (metrics i (h l))
      else []
  | _ => []
  end.

(** The references of the lines of [df] that get at least one flag. *)
Definition flagged_refs (b : bounds) (group_rows : list loc) (df : list mrow)
    : list loc :=
  omap (λ r, match flags_of b r with
             | [] => None
             | _ => group_rows !! idx (base r)
             end) df.

End Frames.

(** ** Definitions used to state further properties *)

(** The first of the three numeric columns that the frame lacks, in
    the order the coercion loop asks for them. *)
Definition missing_column (frame : list row) : option string :=
  if negb (has_column frame "TOTAL_PAID") then Some "TOTAL_PAID"
  else if negb (has_column frame "TOTAL_UNIQUE_BENEFICIARIES")
       then Some "TOTAL_UNIQUE_BENEFICIARIES"
  else if negb (has_column frame "TOTAL_CLAIMS") then Some "TOTAL_CLAIMS"
  else None.

(** The detector applied to the groups of an input one after the
    other, each on the store the one before left. *)
Fixpoint detect_groups (to_numeric : string → fval) (h : heap)
    (groups : list (list loc)) : result (heap * list loc) :=
  match groups with
  | [] => Ok (h, [])
  | g :: groups =>
      '(h1, outliers) ← detect_outliers to_numeric h g;
      '(h2, more) ← detect_groups to_numeric h1 groups;
      Ok (h2, outliers ++ more)
  end.

(** No two neighbours of the list are equal. *)
Fixpoint distinct_neighbours {K : Type} (ks : list K) : Prop :=
  match ks with
  | k1 :: ((k2 :: _) as rest) => k1 ≠ k2 ∧ distinct_neighbours rest
  | _ => True
  end.

(** Each group is not empty and all its rows carry its key. *)
Definition keyed_groups (h : heap)
    (kgs : list ((string * string) * list loc)) : Prop :=
  Forall (λ kg, kg.2 ≠ [] ∧ Forall (λ l, row_key (h l) = Ok kg.1) kg.2) kgs.

(** An input that is not sorted: code A, then code B, then code A
    again. *)
Definition ex_fragmented : list row :=
  ex_two_groups ++ ex_six.

(** The six claims followed by a row that has no procedure code. *)
Definition ex_no_code : list row :=
  ex_six ++ [delete "HCPCS_CODE" (claim_row "A" "2024-01" "10" "1" "1")].

(** A record that carries the two grouping keys and the three numeric
    fields. *)
Definition well_formed (r : row) : Prop :=
  is_Some (r !! "HCPCS_CODE") ∧ is_Some (r !! "CLAIM_FROM_MONTH")
  ∧ has_numeric_fields r.

(** ** The metric deriver *)

Lemma safe_ratio_spec (numerator denominator : fval) :
  safe_ratio numerator denominator = Ok (ratio numerator denominator).
Proof.
  unfold safe_ratio, ratio, truediv.
  destruct (is_zero denominator); reflexivity.
Qed.

Lemma bind_Ok {A B : Type} (a : A) (k : A → result B) : Ok a ≫= k = k a.
Proof. reflexivity. Qed.

Lemma mapM_total {A B : Type} (f : A → result B) (g : A → B) (l : list A) :
  (∀ x, f x = Ok (g x)) → mapM f l = Ok (map g l).
Proof.
  intros Hf. induction l as [|x l IH]; [reflexivity|].
  cbn. rewrite Hf. cbn. rewrite IH. reflexivity.
Qed.

Section FrameLemmas.

Variable to_numeric : string → fval.

Lemma derive_metrics_spec (df : list nrow) :
  derive_metrics df = Ok (map with_ratios df).
Proof.
  unfold derive_metrics.
  rewrite (mapM_total _ (λ r, (r, ratio (TOTAL_PAID r) (TOTAL_UNIQUE_BENEFICIARIES r)))).
  2:{ intros r. unfold add_paid_per_benef. rewrite safe_ratio_spec. reflexivity. }
  cbn.
  rewrite (mapM_total _ (λ rb : nrow * fval,
    {| base := rb.1; PAID_PER_BENEF := rb.2;
       PAID_PER_CLAIM := ratio (TOTAL_PAID rb.1) (TOTAL_CLAIMS rb.1) |})).
  2:{ intros r. unfold add_paid_per_claim. rewrite safe_ratio_spec. reflexivity. }
  rewrite map_map. reflexivity.
Qed.

Lemma coerce_numeric_spec (frame : list row) :
  numeric_columns frame = true →
  coerce_numeric to_numeric frame = Ok (imap (coerce_row to_numeric) frame).
Proof.
  unfold numeric_columns, coerce_numeric, require_column.
  intros H. apply andb_prop in H as [H H3]. apply andb_prop in H as [H1 H2].
  rewrite H1, H2, H3. reflexivity.
Qed.

Lemma length_frame_clean_le h group_rows :
  length (frame_clean to_numeric h group_rows)
  ≤ length (frame_df to_numeric h group_rows).
Proof. apply length_filter. Qed.

Lemma length_frame_df_le h group_rows :
  length (frame_df to_numeric h group_rows) ≤ length group_rows.
Proof.
  unfold frame_df, dropna_numeric, DataFrame.
  rewrite length_map.
  etransitivity; [apply length_filter|].
  rewrite length_imap, length_map. reflexivity.
Qed.

(** The gates of lines 17 to 46, as one case distinction on the
    number of records with both ratios. *)
Lemma prepare_frames_spec h group_rows :
  numeric_columns (DataFrame h group_rows) = true →
  prepare_frames to_numeric h group_rows =
    Ok (if (length (frame_clean to_numeric h group_rows) <? 4)%nat then None
        else Some (frame_df to_numeric h group_rows,
                   frame_clean to_numeric h group_rows)).
Proof.
  intros Hcols. unfold prepare_frames.
  pose proof (length_frame_clean_le h group_rows) as Hc.
  pose proof (length_frame_df_le h group_rows) as Hd.
  destruct (length group_rows <? 4)%nat eqn:Hlen.
  { apply Nat.ltb_lt in Hlen.
    replace (length (frame_clean to_numeric h group_rows) <? 4)%nat with true;
      [reflexivity|]. symmetry. apply Nat.ltb_lt. lia. }
  rewrite coerce_numeric_spec by assumption. rewrite bind_Ok.
  destruct (length (dropna_numeric (imap (coerce_row to_numeric) (DataFrame h group_rows))) <? 4)%nat eqn:Hlen2.
  { apply Nat.ltb_lt in Hlen2.
    unfold frame_df in Hd, Hc. rewrite length_map in Hd, Hc.
    replace (length (frame_clean to_numeric h group_rows) <? 4)%nat with true;
      [reflexivity|]. symmetry. apply Nat.ltb_lt. lia. }
  rewrite derive_metrics_spec. rewrite bind_Ok.
  fold (frame_df to_numeric h group_rows).
  fold (frame_clean to_numeric h group_rows).
  destruct (length (frame_clean to_numeric h group_rows) <? 4)%nat; reflexivity.
Qed.

(** Without the columns the function leaves early only through the
    first gate. *)
Lemma prepare_frames_short h group_rows :
  length group_rows < 4 → prepare_frames to_numeric h group_rows = Ok None.
Proof.
  intros H. unfold prepare_frames.
  apply Nat.ltb_lt in H. rewrite H. reflexivity.
Qed.

End FrameLemmas.

(** ** The flagging loop *)

Lemma annotate_annotate (f g : list string) (r : row) :
  annotate g (annotate f r) = annotate g r.
Proof. unfold annotate. apply insert_insert_eq. Qed.

Lemma flagged_refs_cons b group_rows r df :
  flagged_refs b group_rows (r :: df) =
    match flags_of b r with
    | [] => flagged_refs b group_rows df
    | _ =>
        match group_rows !! idx (base r) with
        | Some l => l :: flagged_refs b group_rows df
        | None => flagged_refs b group_rows df
        end
    end.
Proof.
  unfold flagged_refs. cbn.
  destruct (flags_of b r); [reflexivity|].
  destruct (group_rows !! idx (base r)); reflexivity.
Qed.

(** The loop returns the references of the flagged lines, in the order
    of the frame, appended to the list it started with; it writes the
    annotation into each of their dictionaries and into no other. *)
Lemma flag_loop_spec b (group_rows : list loc) df :
  (∀ r, r ∈ df → is_Some (group_rows !! idx (base r))) →
  ∀ (h : heap) acc,
  ∃ h' : heap,
    flag_loop b group_rows df h acc
      = Ok (h', acc ++ flagged_refs b group_rows df)
    ∧ (∀ l, l ∉ flagged_refs b group_rows df → h' l = h l)
    ∧ (∀ l, l ∈ flagged_refs b group_rows df →
         ∃ r, r ∈ df ∧ flags_of b r ≠ []
              ∧ group_rows !! idx (base r) = Some l
              ∧ h' l = annotate (flags_of b r) (h l)).
Proof.
  induction df as [|r df IH]; intros Hidx h acc.
  - exists h. cbn. rewrite app_nil_r.
    split; [reflexivity|]. split; [reflexivity|].
    intros l Hl. by apply elem_of_nil in Hl.
  - rewrite flagged_refs_cons. cbn [flag_loop].
    assert (Hrest : ∀ r', r' ∈ df → is_Some (group_rows !! idx (base r'))).
    { intros r' Hr'. apply Hidx. by right. }
    destruct (flags_of b r) as [|f fs] eqn:Hflags.
    + destruct (IH Hrest h acc) as (h' & Hrun & Hout & Hin).
      exists h'. split; [exact Hrun|]. split; [exact Hout|].
      intros l Hl. destruct (Hin l Hl) as (r' & Hr' & ?).
      exists r'. split; [by right | assumption].
    + destruct (Hidx r) as [l0 Hl0]; [by left|]. rewrite Hl0.
      destruct (IH Hrest (<[l0 := annotate (f :: fs) (h l0)]> h) (acc ++ [l0]))
        as (h' & Hrun & Hout & Hin).
      exists h'. split; [|split].
      * rewrite Hrun. rewrite <- app_assoc. reflexivity.
      * intros l Hl. apply not_elem_of_cons in Hl as [Hne Hl].
        rewrite (Hout l Hl). by apply fn_lookup_insert_ne.
      * intros l Hl.
        destruct (decide (l ∈ flagged_refs b group_rows df)) as [Hrest'|Hrest'].
        -- destruct (Hin l Hrest') as (r' & Hr' & Hne & Hlk & Hh').
           exists r'. split; [by right|]. split; [exact Hne|]. split; [exact Hlk|].
           rewrite Hh'. destruct (decide (l0 = l)) as [->|Hneq].
           ++ rewrite fn_lookup_insert. apply annotate_annotate.
           ++ by rewrite fn_lookup_insert_ne.
        -- apply elem_of_cons in Hl as [->|Hl]; [|contradiction].
           exists r. split; [by left|]. rewrite Hflags.
           split; [discriminate|]. split; [exact Hl0|].
           rewrite (Hout l0 Hrest'). apply fn_lookup_insert.
Qed.

Section FrameMembers.

Variable to_numeric : string → fval.

(** A line of the loop's frame is the line of one record of the
    group that survived the numeric coercion, under its position. *)
Lemma elem_of_frame_df h (group_rows : list loc) (r : mrow) :
  r ∈ frame_df to_numeric h group_rows ↔
  ∃ i l, group_rows !! i = Some l
         ∧ r = metrics to_numeric i (h l)
         ∧ valid_numeric (coerce_row to_numeric i (h l)) = true.
Proof.
  unfold frame_df, dropna_numeric, DataFrame, metrics. split.
  - intros Hr. apply list_elem_of_fmap in Hr as (n & -> & Hn).
    apply list_elem_of_filter in Hn as [Hvalid Hn].
    apply elem_of_lookup_imap in Hn as (i & x & -> & Hx).
    change (map h group_rows) with (h <$> group_rows) in Hx.
    rewrite list_lookup_fmap in Hx.
    destruct (group_rows !! i) as [l|] eqn:Hl; [|discriminate].
    injection Hx as <-. eauto.
  - intros (i & l & Hl & -> & Hvalid).
    apply list_elem_of_fmap. eexists. split; [reflexivity|].
    apply list_elem_of_filter. split; [exact Hvalid|].
    apply elem_of_lookup_imap. exists i, (h l). split; [reflexivity|].
    change (map h group_rows) with (h <$> group_rows).
    rewrite list_lookup_fmap, Hl. reflexivity.
Qed.

Lemma frame_df_idx h (group_rows : list loc) (r : mrow) :
  r ∈ frame_df to_numeric h group_rows →
  is_Some (group_rows !! idx (base r)).
Proof.
  intros Hr. apply elem_of_frame_df in Hr as (i & l & Hl & -> & _).
  cbn. eauto.
Qed.

Lemma elem_of_frame_clean h (group_rows : list loc) (r : mrow) :
  r ∈ frame_clean to_numeric h group_rows ↔
  r ∈ frame_df to_numeric h group_rows ∧ valid_ratios r = true.
Proof.
  unfold frame_clean, dropna_ratios. rewrite list_elem_of_filter. tauto.
Qed.

(** [detect_outliers] on a group that reaches the thresholds. *)
Lemma detect_outliers_reached h (group_rows : list loc) df df_clean :
  prepare_frames to_numeric h group_rows = Ok (Some (df, df_clean)) →
  detect_outliers to_numeric h group_rows
    = flag_loop (compute_bounds df_clean) group_rows df h [].
Proof. intros H. unfold detect_outliers. rewrite H. reflexivity. Qed.

Lemma detect_outliers_skipped h (group_rows : list loc) :
  prepare_frames to_numeric h group_rows = Ok None →
  detect_outliers to_numeric h group_rows = Ok (h, []).
Proof. intros H. unfold detect_outliers. rewrite H. reflexivity. Qed.

End FrameMembers.

Section Reached.

Variable to_numeric : string → fval.

Lemma coerce_numeric_columns (frame : list row) (df : list nrow) :
  coerce_numeric to_numeric frame = Ok df → numeric_columns frame = true.
Proof.
  unfold coerce_numeric, require_column, numeric_columns.
  destruct (has_column frame "TOTAL_PAID"); [|discriminate].
  destruct (has_column frame "TOTAL_UNIQUE_BENEFICIARIES"); [|discriminate].
  destruct (has_column frame "TOTAL_CLAIMS"); [reflexivity|discriminate].
Qed.

Lemma prepare_frames_columns h (group_rows : list loc) frames :
  prepare_frames to_numeric h group_rows = Ok (Some frames) →
  numeric_columns (DataFrame h group_rows) = true.
Proof.
  unfold prepare_frames.
  destruct (length group_rows <? 4)%nat; [discriminate|].
  destruct (coerce_numeric to_numeric (DataFrame h group_rows)) as [df|e] eqn:Hdf;
    [|discriminate].
  intros _. eapply coerce_numeric_columns, Hdf.
Qed.

(** A group goes on to the thresholds with exactly the two frames
    [frame_df] and [frame_clean], the second of at least four lines. *)
Lemma prepare_frames_reached h (group_rows : list loc) df df_clean :
  prepare_frames to_numeric h group_rows = Ok (Some (df, df_clean)) →
  df = frame_df to_numeric h group_rows
  ∧ df_clean = frame_clean to_numeric h group_rows
  ∧ 4 ≤ length df_clean.
Proof.
  intros H. pose proof (prepare_frames_columns _ _ _ H) as Hcols.
  rewrite prepare_frames_spec in H by assumption.
  destruct (length (frame_clean to_numeric h group_rows) <? 4)%nat eqn:Hlen;
    [discriminate|].
  injection H as <- <-. apply Nat.ltb_ge in Hlen. auto.
Qed.

End Reached.

Lemma has_column_intro (frame : list row) (col : string) (r : row) :
  r ∈ frame → is_Some (r !! col) → has_column frame col = true.
Proof.
  intros Hr Hcol. unfold has_column. apply existsb_exists.
  exists r. split; [by apply list_elem_of_In|]. by apply bool_decide_eq_true.
Qed.

Lemma numeric_columns_intro (h : heap) (group_rows : list loc) :
  group_rows ≠ [] →
  Forall (λ l, has_numeric_fields (h l)) group_rows →
  numeric_columns (DataFrame h group_rows) = true.
Proof.
  destruct group_rows as [|l rest]; [done|]. intros _ Hall.
  inversion Hall as [|? ? (H1 & H2 & H3) _]; subst.
  unfold numeric_columns, DataFrame. cbn [map].
  rewrite (has_column_intro _ "TOTAL_PAID" (h l)) by (by left || assumption).
  rewrite (has_column_intro _ "TOTAL_UNIQUE_BENEFICIARIES" (h l))
    by (by left || assumption).
  rewrite (has_column_intro _ "TOTAL_CLAIMS" (h l)) by (by left || assumption).
  reflexivity.
Qed.

Section Counting.

Variable to_numeric : string → fval.

Lemma frame_clean_count_from (k : nat) (frame : list row) :
  length (dropna_ratios (map (with_ratios)
            (dropna_numeric (imap (λ i, coerce_row to_numeric (k + i)) frame))))
  = length (filter (λ r, fully_valid to_numeric r = true) frame).
Proof.
  revert k. induction frame as [|x frame IH]; intros k; [reflexivity|].
  cbn [imap]. unfold dropna_numeric, dropna_ratios in *.
  rewrite (imap_ext _ (λ i, coerce_row to_numeric (S k + i)))
    by (intros i y _; cbn; f_equal; lia).
  assert (Hfv : fully_valid to_numeric x
            = valid_numeric (coerce_row to_numeric (k + 0) x)
              && valid_ratios (with_ratios (coerce_row to_numeric (k + 0) x)))
    by reflexivity.
  destruct (valid_numeric (coerce_row to_numeric (k + 0) x)) eqn:Hn.
  - rewrite (filter_cons_True (λ r : nrow, valid_numeric r = true)) by exact Hn.
    cbn [map].
    destruct (valid_ratios (with_ratios (coerce_row to_numeric (k + 0) x))) eqn:Hr.
    + rewrite (filter_cons_True (λ r : mrow, valid_ratios r = true)) by exact Hr.
      rewrite (filter_cons_True (λ r : row, fully_valid to_numeric r = true))
        by exact Hfv.
      cbn [length]. f_equal. apply IH.
    + rewrite (filter_cons_False (λ r : mrow, valid_ratios r = true))
        by (rewrite Hr; discriminate).
      rewrite (filter_cons_False (λ r : row, fully_valid to_numeric r = true))
        by (rewrite Hfv; discriminate).
      apply IH.
  - rewrite (filter_cons_False (λ r : nrow, valid_numeric r = true))
      by (rewrite Hn; discriminate).
    rewrite (filter_cons_False (λ r : row, fully_valid to_numeric r = true))
      by (rewrite Hfv; discriminate).
    apply IH.
Qed.

(** The second frame holds exactly the fully valid records. *)
Lemma frame_clean_count h (group_rows : list loc) :
  length (frame_clean to_numeric h group_rows)
  = length (filter (λ r, fully_valid to_numeric r = true) (DataFrame h group_rows)).
Proof.
  unfold frame_clean, frame_df.
  rewrite <- (frame_clean_count_from 0). reflexivity.
Qed.

End Counting.

(** ** The flag names *)

Lemma elem_of_flag_if (b : bool) (name x : string) :
  x ∈ flag_if b name ↔ b = true ∧ x = name.
Proof.
  destruct b; cbn.
  - rewrite list_elem_of_singleton. tauto.
  - rewrite elem_of_nil. split; [tauto|]. intros [? _]. discriminate.
Qed.

Lemma elem_of_flags_of (b : bounds) (r : mrow) (x : string) :
  x ∈ flags_of b r ↔
    (exceeds (TOTAL_PAID (base r)) (high_total_paid b) = true
       ∧ x = "high_total_paid")
    ∨ (exceeds (PAID_PER_BENEF r) (high_paid_per_benef b) = true
       ∧ x = "high_paid_per_benef")
    ∨ (exceeds (PAID_PER_CLAIM r) (high_paid_per_claim b) = true
       ∧ x = "high_paid_per_claim")
    ∨ (exceeds (TOTAL_UNIQUE_BENEFICIARIES (base r)) (high_unique_benef b) = true
       ∧ x = "high_unique_beneficiaries").
Proof.
  unfold flags_of. rewrite !elem_of_app, !elem_of_flag_if. tauto.
Qed.

(** Each name is in the list exactly when its own test succeeded. *)
Lemma flags_of_tests (b : bounds) (r : mrow) :
  ("high_total_paid" ∈ flags_of b r
     ↔ exceeds (TOTAL_PAID (base r)) (high_total_paid b) = true)
  ∧ ("high_paid_per_benef" ∈ flags_of b r
     ↔ exceeds (PAID_PER_BENEF r) (high_paid_per_benef b) = true)
  ∧ ("high_paid_per_claim" ∈ flags_of b r
     ↔ exceeds (PAID_PER_CLAIM r) (high_paid_per_claim b) = true)
  ∧ ("high_unique_beneficiaries" ∈ flags_of b r
     ↔ exceeds (TOTAL_UNIQUE_BENEFICIARIES (base r)) (high_unique_benef b) = true).
Proof.
  rewrite !elem_of_flags_of.
  repeat split; intros H;
    try (destruct H as [[? H]|[[? H]|[[? H]|[? H]]]]; (assumption || discriminate));
    auto 6.
Qed.

Lemma exceeds_spec (v bound : fval) :
  exceeds v bound = true ↔ notna v = true ∧ fgtb v bound = true.
Proof. unfold exceeds. apply andb_true_iff. Qed.

(** ** The order on numbers *)

Lemma fleb_Fin (a b : Qc) : fleb (Fin a) (Fin b) = true ↔ (a <= b)%Qc.
Proof.
  cbn. rewrite Qcle_alt. destruct (a ?= b)%Qc; split; congruence.
Qed.

Lemma fgtb_Fin (a b : Qc) : fgtb (Fin a) (Fin b) = true ↔ (b < a)%Qc.
Proof.
  cbn. rewrite Qclt_alt. destruct (b ?= a)%Qc; split; congruence.
Qed.

#[global] Instance fle_total : Total fle.
Proof.
  intros x y. unfold fle.
  destruct x as [| | |a], y as [| | |b]; cbn; auto.
  destruct (Qclt_le_dec b a) as [H|H].
  - right. apply Is_true_true, fleb_Fin. by apply Qclt_le_weak.
  - left. apply Is_true_true. change (fleb (Fin a) (Fin b) = true).
    by apply fleb_Fin.
Qed.

#[global] Instance fle_trans : Transitive fle.
Proof.
  intros x y z. unfold fle. rewrite !Is_true_true.
  destruct x as [| | |a], y as [| | |b], z as [| | |c];
    try (cbn; congruence).
  rewrite !fleb_Fin. apply Qcle_trans.
Qed.

#[global] Instance fle_antisym : AntiSymm (=) fle.
Proof.
  intros x y. unfold fle. rewrite !Is_true_true.
  destruct x as [| | |a], y as [| | |b]; try (cbn; congruence).
  rewrite !fleb_Fin. intros H1 H2. f_equal. by apply Qcle_antisym.
Qed.

(** ** Quantiles *)

Lemma merge_sort_fle_perm (l1 l2 : list fval) :
  l1 ≡ₚ l2 → merge_sort fle l1 = merge_sort fle l2.
Proof.
  intros H. apply (Sorted_unique fle); try apply Sorted_merge_sort; try apply _.
  by rewrite !merge_sort_Permutation.
Qed.

Lemma merge_sort_fle_sorted (l : list fval) :
  Sorted fle l → merge_sort fle l = l.
Proof.
  intros H. apply (Sorted_unique fle); try apply _; try assumption.
  - apply Sorted_merge_sort; apply _.
  - apply merge_sort_Permutation.
Qed.

(** The quantile does not depend on the order of the series. *)
Lemma quantile_perm (s1 s2 : list fval) (q : Qc) :
  s1 ≡ₚ s2 → quantile s1 q = quantile s2 q.
Proof.
  intros H. unfold quantile.
  rewrite (merge_sort_fle_perm (filter _ s1) (filter (λ x, notna x = true) s2));
    [reflexivity|].
  by rewrite H.
Qed.

Lemma get_upper_bound_perm (s1 s2 : list fval) :
  s1 ≡ₚ s2 → get_upper_bound s1 = get_upper_bound s2.
Proof.
  intros H. unfold get_upper_bound.
  rewrite (Permutation_length H).
  rewrite !(quantile_perm s1 s2) by assumption. reflexivity.
Qed.

Lemma get_upper_bound_fence (series : list fval) :
  4 ≤ length series → get_upper_bound series = upper_fence series.
Proof.
  intros H. unfold get_upper_bound, upper_fence.
  apply Nat.ltb_ge in H. rewrite H. reflexivity.
Qed.

(** ** Constant series *)

Lemma qz_nonneg (m : nat) : (0 <= qz (Z.of_nat m))%Qc.
Proof.
  unfold Qcle, qz. cbn [this Q2Qc]. rewrite !Qred_correct.
  change (inject_Z 0 <= inject_Z (Z.of_nat m))%Q.
  rewrite <- Zle_Qle. lia.
Qed.

(** The lower neighbour of the virtual index lies inside the array. *)
Lemma quantile_index_le (m : nat) (q : Qc) :
  (0 <= q)%Qc → (q <= 1)%Qc →
  Z.to_nat (Qfloor (qz (Z.of_nat m) * q)%Qc) ≤ m.
Proof.
  intros H0 H1.
  assert (Hle : (qz (Z.of_nat m) * q <= qz (Z.of_nat m))%Qc).
  { rewrite <- (Qcmult_1_r (qz (Z.of_nat m))) at 2.
    apply Qcmult_le_mono_nonneg_l; [apply qz_nonneg | exact H1]. }
  apply Qfloor_resp_le in Hle.
  unfold qz at 2 in Hle. cbn [this Q2Qc] in Hle.
  rewrite Qred_correct, Qfloor_Z in Hle. lia.
Qed.

Lemma nth_replicate_lt {A : Type} (n i : nat) (v d : A) :
  i < n → nth i (replicate n v) d = v.
Proof.
  revert i. induction n as [|n IH]; intros [|i] H; cbn; try lia; try reflexivity.
  apply IH. lia.
Qed.

Lemma map_constant {A B : Type} (f : A → B) (v : B) (l : list A) :
  (∀ x, x ∈ l → f x = v) → map f l = replicate (length l) v.
Proof.
  induction l as [|x l IH]; intros H; [reflexivity|].
  cbn. rewrite H by (by left). f_equal. apply IH. intros y Hy. apply H. by right.
Qed.

Lemma filter_notna_replicate (n : nat) (v : fval) :
  notna v = true →
  filter (λ x, notna x = true) (replicate n v) = replicate n v.
Proof.
  intros Hv. induction n as [|n IH]; [reflexivity|].
  cbn [replicate]. rewrite filter_cons_True by exact Hv. by rewrite IH.
Qed.

Lemma merge_sort_replicate (n : nat) (v : fval) :
  merge_sort fle (replicate n v) = replicate n v.
Proof.
  symmetry. apply replicate_Permutation. symmetry. apply merge_sort_Permutation.
Qed.

Lemma lerp_same_Fin (x t : Qc) : lerp (Fin x) (Fin x) t = Fin x.
Proof.
  unfold lerp. destruct (t ?= qd 1 2)%Qc; cbn; f_equal; ring.
Qed.

Lemma lerp_same_inf (v : fval) (t : Qc) :
  v = PInf ∨ v = NInf → lerp v v t = NaN.
Proof.
  intros [-> | ->]; unfold lerp; destruct (t ?= qd 1 2)%Qc; reflexivity.
Qed.

(** On a constant series of valid values every quantile interpolates
    between two copies of the value. *)
Lemma quantile_replicate (n : nat) (v : fval) (q : Qc) :
  notna v = true → (0 <= q)%Qc → (q <= 1)%Qc →
  ∃ t, quantile (replicate (S n) v) q = lerp v v t.
Proof.
  intros Hv H0 H1. unfold quantile, interpolate.
  rewrite filter_notna_replicate by exact Hv.
  rewrite merge_sort_replicate, length_replicate.
  pose proof (quantile_index_le n q H0 H1) as Hidx.
  rewrite !nth_replicate_lt by lia. eauto.
Qed.

Lemma quantile_replicate_Fin (n : nat) (x q : Qc) :
  (0 <= q)%Qc → (q <= 1)%Qc → quantile (replicate (S n) (Fin x)) q = Fin x.
Proof.
  intros H0 H1.
  destruct (quantile_replicate n (Fin x) q eq_refl H0 H1) as [t ->].
  apply lerp_same_Fin.
Qed.

Lemma quarter_bounds : (0 <= qd 1 4)%Qc ∧ (qd 1 4 <= 1)%Qc.
Proof. split; apply Qcle_alt; vm_compute; discriminate. Qed.

Lemma three_quarter_bounds : (0 <= qd 3 4)%Qc ∧ (qd 3 4 <= 1)%Qc.
Proof. split; apply Qcle_alt; vm_compute; discriminate. Qed.

(** The fence of a constant finite series is the shared value. *)
Lemma upper_fence_replicate_Fin (n : nat) (x : Qc) :
  upper_fence (replicate (S n) (Fin x)) = Fin x.
Proof.
  unfold upper_fence.
  rewrite !quantile_replicate_Fin by apply quarter_bounds || apply three_quarter_bounds.
  cbn. f_equal. ring.
Qed.

Lemma exceeds_PInf (v : fval) : exceeds v PInf = false.
Proof. by destruct v. Qed.

Lemma fgtb_irrefl (v : fval) : fgtb v v = false.
Proof.
  destruct v as [| | |x]; try reflexivity.
  cbn. by rewrite (proj1 (Qceq_alt x x) eq_refl).
Qed.

(** No member of a constant series exceeds the bound of the series. *)
Lemma exceeds_constant (n : nat) (v : fval) :
  exceeds v (get_upper_bound (replicate n v)) = false.
Proof.
  unfold get_upper_bound. rewrite length_replicate.
  destruct (n <? 4)%nat eqn:Hn; [apply exceeds_PInf|].
  destruct n as [|n]; [discriminate|].
  destruct v as [| | |x]; [reflexivity| | |].
  - destruct (quantile_replicate n PInf (qd 3 4) eq_refl) as [t ->];
      try apply three_quarter_bounds.
    rewrite (lerp_same_inf PInf) by auto. reflexivity.
  - destruct (quantile_replicate n NInf (qd 3 4) eq_refl) as [t ->];
      try apply three_quarter_bounds.
    rewrite (lerp_same_inf NInf) by auto. reflexivity.
  - pose proof (upper_fence_replicate_Fin n x) as Hf. unfold upper_fence in Hf.
    rewrite Hf. unfold exceeds. by rewrite fgtb_irrefl.
Qed.

(** ** The detector on a group that reaches the thresholds *)

Section Flagging.

Variable to_numeric : string → fval.

(** The flags of a line do not depend on its index label. *)
Lemma flags_of_metrics_idx (b : bounds) (i j : nat) (r : row) :
  flags_of b (metrics to_numeric i r) = flags_of b (metrics to_numeric j r).
Proof. reflexivity. Qed.

Lemma valid_numeric_idx (i j : nat) (r : row) :
  valid_numeric (coerce_row to_numeric i r)
  = valid_numeric (coerce_row to_numeric j r).
Proof. reflexivity. Qed.

(** Which references the loop returns, in terms of the records. *)
Lemma elem_of_flagged_refs (b : bounds) h (group_rows : list loc) (l : loc) :
  l ∈ flagged_refs b group_rows (frame_df to_numeric h group_rows) ↔
  ∃ i, group_rows !! i = Some l
       ∧ valid_numeric (coerce_row to_numeric i (h l)) = true
       ∧ flags_of b (metrics to_numeric i (h l)) ≠ [].
Proof.
  unfold flagged_refs. rewrite list_elem_of_omap. split.
  - intros (r & Hr & Hl).
    apply elem_of_frame_df in Hr as (i & l' & Hi & -> & Hvalid).
    destruct (flags_of b (metrics to_numeric i (h l'))) eqn:Hflags;
      [discriminate|].
    cbn in Hl. rewrite Hi in Hl. injection Hl as ->.
    exists i. rewrite Hflags. done.
  - intros (i & Hi & Hvalid & Hflags).
    exists (metrics to_numeric i (h l)). split.
    + apply elem_of_frame_df. eauto.
    + destruct (flags_of b (metrics to_numeric i (h l))); [done|]. exact Hi.
Qed.

(** The result of [detect_outliers] on a group that reaches the
    thresholds: which references it returns and what it leaves in
    the store. *)
Lemma detect_outliers_flagged h (group_rows : list loc) df df_clean :
  prepare_frames to_numeric h group_rows = Ok (Some (df, df_clean)) →
  ∃ h' : heap,
    detect_outliers to_numeric h group_rows
      = Ok (h', flagged_refs (compute_bounds df_clean) group_rows df)
    ∧ (∀ l, l ∉ flagged_refs (compute_bounds df_clean) group_rows df →
         h' l = h l)
    ∧ (∀ i l, group_rows !! i = Some l →
         l ∈ flagged_refs (compute_bounds df_clean) group_rows df →
         valid_numeric (coerce_row to_numeric i (h l)) = true
         ∧ flags_of (compute_bounds df_clean) (metrics to_numeric i (h l)) ≠ []
         ∧ h' l = annotate
                    (flags_of (compute_bounds df_clean) (metrics to_numeric i (h l)))
                    (h l)).
Proof.
  intros Hprep. rewrite (detect_outliers_reached _ _ _ _ _ Hprep).
  apply prepare_frames_reached in Hprep as (-> & -> & _).
  set (b := compute_bounds (frame_clean to_numeric h group_rows)).
  destruct (flag_loop_spec b group_rows (frame_df to_numeric h group_rows)
              (frame_df_idx to_numeric h group_rows) h [])
    as (h' & Hrun & Hout & Hin).
  exists h'. split; [exact Hrun|]. split; [exact Hout|].
  intros i l Hi Hl. destruct (Hin l Hl) as (r & Hr & Hne & Hlk & Hh').
  apply elem_of_frame_df in Hr as (j & l' & Hj & -> & Hvalid).
  cbn in Hlk. rewrite Hj in Hlk. injection Hlk as ->.
  rewrite (flags_of_metrics_idx b i j), (valid_numeric_idx i j). done.
Qed.

End Flagging.

(** ** The order of the flags and of the returned references *)

Lemma flags_of_check_order (b : bounds) (r : mrow) :
  sublist (flags_of b r) check_order.
Proof.
  unfold flags_of, check_order, flag_if.
  destruct (exceeds _ _), (exceeds _ _), (exceeds _ _), (exceeds _ _); cbn;
    repeat first [apply sublist_nil_l | apply sublist_skip | apply sublist_cons].
Qed.

Lemma flagged_refs_sublist_from (to_numeric : string → fval) (b : bounds)
    (h : heap) (group_rows pre suf : list loc) :
  group_rows = pre ++ suf →
  sublist
    (flagged_refs b group_rows
       (map with_ratios
          (dropna_numeric
             (imap (λ i, coerce_row to_numeric (length pre + i)) (map h suf)))))
    suf.
Proof.
  revert pre. induction suf as [|x suf IH]; intros pre Hrows.
  { cbn. constructor. }
  cbn [map imap].
  rewrite (imap_ext _ (λ i, coerce_row to_numeric (length (pre ++ [x]) + i)))
    by (intros i y _; cbn; f_equal; rewrite length_app; cbn; lia).
  assert (Hrest := IH (pre ++ [x])). rewrite <- app_assoc in Hrest.
  specialize (Hrest Hrows).
  unfold dropna_numeric in *.
  destruct (valid_numeric (coerce_row to_numeric (length pre + 0) (h x))) eqn:Hv.
  - rewrite (filter_cons_True (λ r : nrow, valid_numeric r = true)) by exact Hv.
    cbn [map]. rewrite flagged_refs_cons.
    destruct (flags_of b _); [by apply sublist_cons|].
    cbn [base with_ratios idx coerce_row].
    replace (group_rows !! (length pre + 0)) with (Some x)
      by (rewrite Hrows; symmetry; apply list_lookup_middle; lia).
    by apply sublist_skip.
  - rewrite (filter_cons_False (λ r : nrow, valid_numeric r = true))
      by (rewrite Hv; discriminate).
    by apply sublist_cons.
Qed.

(** The references come back in the order of the group. *)
Lemma flagged_refs_sublist (to_numeric : string → fval) (b : bounds)
    (h : heap) (group_rows : list loc) :
  sublist (flagged_refs b group_rows (frame_df to_numeric h group_rows)) group_rows.
Proof.
  apply (flagged_refs_sublist_from to_numeric b h group_rows [] group_rows).
  reflexivity.
Qed.

(** ** The literal scenario *)

Lemma Fin_eq (q q' : Qc) : (q == q')%Q → Fin q = Fin q'.
Proof. intros H. f_equal. by apply Qc_is_canon. Qed.

Lemma six_payments_q1 : quantile six_payments (qd 1 4) = Fin (qd 49 4).
Proof. vm_compute. by apply Fin_eq. Qed.

Lemma six_payments_q3 : quantile six_payments (qd 3 4) = Fin (qd 59 4).
Proof. vm_compute. by apply Fin_eq. Qed.

Lemma six_payments_bound : get_upper_bound six_payments = Fin (qd 37 2).
Proof. vm_compute. by apply Fin_eq. Qed.

Lemma Fin_neq (q q' : Qc) : (q ?= q')%Qc ≠ Eq → Fin q ≠ Fin q'.
Proof. intros H [= Heq]. by apply Qceq_alt in Heq. Qed.

(** Among the six payments only 100 is above 18.5. *)
Lemma six_payments_exceed (v : fval) :
  v ∈ six_payments →
  exceeds v (Fin (qd 37 2)) = true ↔ v = Fin (qz 100).
Proof.
  unfold six_payments. rewrite !elem_of_cons, elem_of_nil.
  intros [->|[->|[->|[->|[->|[->|[]]]]]]];
    (split; [intros H; vm_compute in H; first [discriminate H | reflexivity]
            |intros H; first [reflexivity
                             | exfalso; revert H; apply Fin_neq; vm_compute;
                               discriminate]]).
Qed.

(** ** A frame without flags *)

Lemma flag_loop_no_flags (b : bounds) (group_rows : list loc) (df : list mrow)
    (h : heap) (acc : list loc) :
  (∀ r, r ∈ df → flags_of b r = []) →
  flag_loop b group_rows df h acc = Ok (h, acc).
Proof.
  induction df as [|r df IH]; intros H; [reflexivity|].
  cbn [flag_loop]. rewrite (H r) by (by left).
  apply IH. intros r' Hr'. apply H. by right.
Qed.

Lemma flags_of_nil (b : bounds) (r : mrow) :
  exceeds (TOTAL_PAID (base r)) (high_total_paid b) = false →
  exceeds (PAID_PER_BENEF r) (high_paid_per_benef b) = false →
  exceeds (PAID_PER_CLAIM r) (high_paid_per_claim b) = false →
  exceeds (TOTAL_UNIQUE_BENEFICIARIES (base r)) (high_unique_benef b) = false →
  flags_of b r = [].
Proof. unfold flags_of. by intros -> -> -> ->. Qed.

(** ** The driver loop *)

Section DriverLemmas.

Variable to_numeric : string → fval.

(** The detector touches no field other than [OUTLIER_REASONS]. *)
Lemma detect_outliers_other_fields (h h' : heap) (group_rows out : list loc) :
  detect_outliers to_numeric h group_rows = Ok (h', out) →
  ∀ l k, k ≠ "OUTLIER_REASONS" → h' l !! k = h l !! k.
Proof.
  intros Hrun l k Hk. unfold detect_outliers in Hrun.
  destruct (prepare_frames to_numeric h group_rows) as [[[df df_clean]|]|e] eqn:Hprep;
    cbn in Hrun; [| |discriminate].
  - destruct (detect_outliers_flagged to_numeric h group_rows df df_clean Hprep)
      as (h2 & Hrun2 & Hout & Hin).
    rewrite (detect_outliers_reached _ _ _ _ _ Hprep) in Hrun2.
    rewrite Hrun in Hrun2. injection Hrun2 as -> ->.
    destruct (decide (l ∈ flagged_refs (compute_bounds df_clean) group_rows df))
      as [Hl|Hl]; [|by rewrite Hout].
    pose proof (prepare_frames_reached _ _ _ _ _ Hprep) as (Hdf & _ & _).
    pose proof Hl as Hl'. rewrite Hdf in Hl'.
    apply elem_of_flagged_refs in Hl' as (i & Hi & _ & _).
    destruct (Hin i l Hi Hl) as (_ & _ & ->).
    unfold annotate. by rewrite lookup_insert_ne.
  - by injection Hrun as <- <-.
Qed.

Lemma row_key_other_fields (r r' : row) :
  (∀ k, k ≠ "OUTLIER_REASONS" → r' !! k = r !! k) → row_key r' = row_key r.
Proof.
  intros H. unfold row_key. by rewrite !H by discriminate.
Qed.

(** The [if outliers:] test only skips an update that changes nothing. *)
Lemma collect_spec (h : heap) (st : driver) :
  collect to_numeric h st =
    detect_outliers to_numeric h (current_group_rows st)
    ≫= λ '(h', outliers), Ok (h', extend st outliers).
Proof.
  unfold collect.
  destruct (detect_outliers to_numeric h (current_group_rows st))
    as [[h' [|o outliers]]|e]; cbn; try reflexivity.
  destruct st. unfold extend. cbn. by rewrite app_nil_r, Nat.add_0_r.
Qed.

Lemma collect_other_fields (h h' : heap) (st st' : driver) :
  collect to_numeric h st = Ok (h', st') →
  current_key st' = current_key st
  ∧ ∀ l k, k ≠ "OUTLIER_REASONS" → h' l !! k = h l !! k.
Proof.
  rewrite collect_spec.
  destruct (detect_outliers to_numeric h (current_group_rows st))
    as [[h2 outliers]|e] eqn:Hrun; cbn; [|discriminate].
  intros [= <- <-]. split; [reflexivity|].
  by eapply detect_outliers_other_fields.
Qed.

Lemma step_other_fields (h h' : heap) (st st' : driver) (r : loc) :
  step to_numeric h st r = Ok (h', st') →
  ∀ l k, k ≠ "OUTLIER_REASONS" → h' l !! k = h l !! k.
Proof.
  unfold step. destruct (row_key (h r)) as [key|e]; cbn; [|discriminate].
  destruct (bool_decide (Some key ≠ current_key st)
            && bool_decide (current_group_rows st ≠ [])).
  - destruct (collect to_numeric h st) as [[h2 st2]|e] eqn:Hc; cbn; [|discriminate].
    intros [= <- <-]. by eapply collect_other_fields.
  - cbn. by intros [= <- <-].
Qed.

Lemma loop_other_fields (reader : list loc) (h h' : heap) (st st' : driver) :
  loop to_numeric h st reader = Ok (h', st') →
  ∀ l k, k ≠ "OUTLIER_REASONS" → h' l !! k = h l !! k.
Proof.
  revert h st. induction reader as [|r reader IH]; intros h st; cbn [loop].
  { by intros [= <- <-]. }
  destruct (step to_numeric h st r) as [[h1 st1]|e] eqn:Hstep; cbn; [|discriminate].
  intros Hloop l k Hk. rewrite (IH _ _ Hloop l k Hk).
  by eapply step_other_fields.
Qed.

Lemma loop_app (a b : list loc) (h : heap) (st : driver) :
  loop to_numeric h st (a ++ b) =
    loop to_numeric h st a ≫= λ '(h1, st1), loop to_numeric h1 st1 b.
Proof.
  revert h st. induction a as [|r a IH]; intros h st; [reflexivity|].
  cbn [app loop].
  destruct (step to_numeric h st r) as [[h1 st1]|e]; cbn; [apply IH|reflexivity].
Qed.

(** Rows under the current key are only buffered. *)
Lemma loop_same_key (g : list loc) (key : string * string) (h : heap)
    (st : driver) :
  Forall (λ l, row_key (h l) = Ok key) g →
  current_key st = Some key →
  loop to_numeric h st g =
    Ok (h, {| outlier_rows := outlier_rows st;
              current_group_rows := current_group_rows st ++ g;
              current_key := Some key;
              total_outliers := total_outliers st;
              total_rows_processed := total_rows_processed st + length g |}).
Proof.
  revert st. induction g as [|r g IH]; intros st Hkeys Hcur.
  { cbn. destruct st. cbn in *. by rewrite app_nil_r, Nat.add_0_r, Hcur. }
  inversion Hkeys as [|? ? Hr Hg]; subst.
  cbn [loop]. unfold step. rewrite Hr, bind_Ok, Hcur.
  rewrite (bool_decide_eq_false_2 (Some key ≠ Some key)) by (intros H; by apply H).
  cbn [andb]. rewrite !bind_Ok.
  rewrite IH by (assumption || reflexivity). cbn.
  do 3 f_equal; [by rewrite <- app_assoc | lia].
Qed.

End DriverLemmas.

(** ** A group with fewer than four fully valid records *)

Section FewValid.

Variable to_numeric : string → fval.



End FewValid.

(** * The claims *)

Section Claims.

Variable to_numeric : string → fval.

(** C3. A group with fewer than four fully valid records, whether
    the group itself is shorter than four, fewer than four records
    survive the numeric coercion, or fewer than four also have both
    derived ratios, gives the empty result: [detect_outliers]
    returns normally, with no flagged record and the store
    unchanged.  The records carry the three numeric fields. *)
Theorem small_group_no_outliers (h : heap) (group_rows : list loc) :
  Forall (λ l, has_numeric_fields (h l)) group_rows →
  length group_rows < 4
  ∨ length (frame_df to_numeric h group_rows) < 4
  ∨ length (filter (λ r, fully_valid to_numeric r = true)
              (DataFrame h group_rows)) < 4 →
  detect_outliers to_numeric h group_rows = Ok (h, []).
Proof.
  intros Hfields Hsmall.
  apply detect_outliers_skipped.
  destruct (decide (length group_rows < 4)) as [Hshort|Hlong].
  { by apply prepare_frames_short. }
  rewrite prepare_frames_spec.
  2:{ apply numeric_columns_intro; [|exact Hfields].
      intros ->. cbn in Hlong. lia. }
  pose proof (length_frame_clean_le to_numeric h group_rows) as Hle.
  rewrite <- frame_clean_count in Hsmall.
  replace (length (frame_clean to_numeric h group_rows) <? 4)%nat with true;
    [reflexivity|].
  symmetry. apply Nat.ltb_lt. lia.
Qed.

(** C9. The fallback of [get_upper_bound] answers plus infinity for
    a series of fewer than four values, a bound no value exceeds;
    it is never taken from [detect_outliers]: whenever the function
    goes on to the thresholds, the frame the four series are taken
    from has at least four lines, so each call computes the
    interquartile fence. *)
Theorem fallback_unreachable (h : heap) (group_rows : list loc) df df_clean :
  prepare_frames to_numeric h group_rows = Ok (Some (df, df_clean)) →
  (∀ series v, length series < 4 →
     get_upper_bound series = PInf ∧ exceeds v (get_upper_bound series) = false)
  ∧ 4 ≤ length df_clean
  ∧ Forall (λ series, 4 ≤ length series
                      ∧ get_upper_bound series = upper_fence series)
      [map (λ r, TOTAL_PAID (base r)) df_clean;
       map PAID_PER_BENEF df_clean;
       map PAID_PER_CLAIM df_clean;
       map (λ r, TOTAL_UNIQUE_BENEFICIARIES (base r)) df_clean]
  ∧ compute_bounds df_clean =
      {| high_total_paid := upper_fence (map (λ r, TOTAL_PAID (base r)) df_clean);
         high_paid_per_benef := upper_fence (map PAID_PER_BENEF df_clean);
         high_paid_per_claim := upper_fence (map PAID_PER_CLAIM df_clean);
         high_unique_benef :=
           upper_fence (map (λ r, TOTAL_UNIQUE_BENEFICIARIES (base r)) df_clean) |}.
Proof.
  intros Hprep. apply prepare_frames_reached in Hprep as (_ & _ & Hlen).
  split.
  { intros series v Hs. unfold get_upper_bound.
    apply Nat.ltb_lt in Hs. rewrite Hs. split; [reflexivity|apply exceeds_PInf]. }
  split; [exact Hlen|].
  assert (Hseries : ∀ f : mrow → fval,
            4 ≤ length (map f df_clean)
            ∧ get_upper_bound (map f df_clean) = upper_fence (map f df_clean)).
  { intros f. rewrite length_map. split; [exact Hlen|].
    apply get_upper_bound_fence. by rewrite length_map. }
  split.
  - repeat constructor; apply Hseries.
  - unfold compute_bounds. by rewrite !(λ f, proj2 (Hseries f)).
Qed.

(** C1. In a group that reaches the thresholds, every record that
    survived the numeric coercion has a line in the frame the loop
    walks, whether or not its derived ratios are valid, and is tested
    on all four bounds: each flag is raised exactly when the record's
    value for that metric is valid and strictly greater than the bound
    of the metric.  The flags are what the detector writes to the
    record's [OUTLIER_REASONS]. *)
Theorem survivors_tested_on_four_bounds (h : heap) (group_rows : list loc)
    df df_clean :
  prepare_frames to_numeric h group_rows = Ok (Some (df, df_clean)) →
  ∀ i l, group_rows !! i = Some l →
  valid_numeric (coerce_row to_numeric i (h l)) = true →
  let r := metrics to_numeric i (h l) in
  let b := compute_bounds df_clean in
  r ∈ df
  ∧ ("high_total_paid" ∈ flags_of b r ↔
       notna (TOTAL_PAID (base r)) = true
       ∧ fgtb (TOTAL_PAID (base r)) (high_total_paid b) = true)
  ∧ ("high_paid_per_benef" ∈ flags_of b r ↔
       notna (PAID_PER_BENEF r) = true
       ∧ fgtb (PAID_PER_BENEF r) (high_paid_per_benef b) = true)
  ∧ ("high_paid_per_claim" ∈ flags_of b r ↔
       notna (PAID_PER_CLAIM r) = true
       ∧ fgtb (PAID_PER_CLAIM r) (high_paid_per_claim b) = true)
  ∧ ("high_unique_beneficiaries" ∈ flags_of b r ↔
       notna (TOTAL_UNIQUE_BENEFICIARIES (base r)) = true
       ∧ fgtb (TOTAL_UNIQUE_BENEFICIARIES (base r)) (high_unique_benef b) = true)
  ∧ ∃ h' : heap,
      detect_outliers to_numeric h group_rows
        = Ok (h', flagged_refs b group_rows df)
      ∧ (l ∈ flagged_refs b group_rows df ↔ flags_of b r ≠ [])
      ∧ (flags_of b r ≠ [] →
           h' l !! "OUTLIER_REASONS" = Some (String.concat "," (flags_of b r))).
Proof.
  intros Hprep i l Hi Hvalid r b.
  destruct (flags_of_tests b r) as (H1 & H2 & H3 & H4).
  rewrite <- !exceeds_spec.
  destruct (detect_outliers_flagged to_numeric h group_rows df df_clean Hprep)
    as (h' & Hrun & Hout & Hin).
  pose proof (prepare_frames_reached _ _ _ _ _ Hprep) as (Hdf & _ & _).
  split; [|split; [exact H1|split; [exact H2|split; [exact H3|split; [exact H4|]]]]].
  { rewrite Hdf. apply elem_of_frame_df. eauto. }
  exists h'. split; [exact Hrun|].
  assert (Hiff : l ∈ flagged_refs b group_rows df ↔ flags_of b r ≠ []).
  { split.
    - intros Hl. by destruct (Hin i l Hi Hl) as (_ & Hne & _).
    - intros Hne. subst df. apply elem_of_flagged_refs. eauto. }
  split; [exact Hiff|].
  intros Hne. apply Hiff in Hne. destruct (Hin i l Hi Hne) as (_ & _ & ->).
  unfold annotate. apply lookup_insert_eq.
Qed.


(** C7, amended. Whenever the detector returns, a record of the group
    is emitted exactly when its list of flags is not empty.  The flags
    follow the fixed check order.  An emitted record holds them, joined
    by commas, under [OUTLIER_REASONS] and keeps the value of every
    other field; when the input record had no field of that name,
    every original field value is kept and [OUTLIER_REASONS] is the one
    field added. *)
Theorem emitted_rows_keep_other_fields (h h' : heap) (group_rows out : list loc) :
  detect_outliers to_numeric h group_rows = Ok (h', out) →
  ∀ i l, group_rows !! i = Some l →
    let flags := record_flags to_numeric h group_rows i l in
    (l ∈ out ↔ flags ≠ [])
    ∧ sublist flags check_order
    ∧ (l ∈ out →
         h' l !! "OUTLIER_REASONS" = Some (String.concat "," flags)
         ∧ (∀ k, k ≠ "OUTLIER_REASONS" → h' l !! k = h l !! k)
         ∧ (h l !! "OUTLIER_REASONS" = None →
              (∀ k v, h l !! k = Some v → h' l !! k = Some v)
              ∧ dom (h' l) = {["OUTLIER_REASONS"]} ∪ dom (h l))).
Proof.
  intros Hrun i l Hi. unfold record_flags.
  unfold detect_outliers in Hrun.
  destruct (prepare_frames to_numeric h group_rows) as [[[df df_clean]|]|e] eqn:Hprep;
    cbn in Hrun; [| |discriminate].
  2:{ injection Hrun as <- <-. cbn zeta.
      split; [|split; [apply sublist_nil_l|]].
      - split; [intros Hl; by apply elem_of_nil in Hl|done].
      - intros Hl. by apply elem_of_nil in Hl. }
  destruct (detect_outliers_flagged to_numeric h group_rows df df_clean Hprep)
    as (h2 & Hrun2 & Hout & Hin).
  rewrite (detect_outliers_reached _ _ _ _ _ Hprep) in Hrun2.
  rewrite Hrun in Hrun2. injection Hrun2 as -> ->.
  pose proof (prepare_frames_reached _ _ _ _ _ Hprep) as (Hdf & _ & _).
  cbn zeta.
  destruct (valid_numeric (coerce_row to_numeric i (h l))) eqn:Hvalid.
  - split; [|split].
    + split.
      * intros Hl. by destruct (Hin i l Hi Hl) as (_ & Hne & _).
      * intros Hne. rewrite Hdf. apply elem_of_flagged_refs. eauto.
    + apply flags_of_check_order.
    + intros Hl. destruct (Hin i l Hi Hl) as (_ & _ & Hh').
      rewrite Hh'. unfold annotate. split; [apply lookup_insert_eq|].
      split; [intros k Hk; by apply lookup_insert_ne|].
      intros Hnone. split.
      * intros k v Hk. rewrite lookup_insert_ne; [exact Hk|].
        intros <-. congruence.
      * apply dom_insert_L.
  - assert (Hnot : l ∉ flagged_refs (compute_bounds df_clean) group_rows df).
    { intros Hl. destruct (Hin i l Hi Hl) as (Hv & _). congruence. }
    split; [|split; [apply sublist_nil_l|]].
    + split; [intros Hl; contradiction|done].
    + intros Hl. contradiction.
Qed.

(** C10. [detect_outliers] works on the caller's dictionaries: the
    rows it returns are references taken from [group_rows], in the
    order of the group; each of them has had [OUTLIER_REASONS] set in
    place to the joined flags, which are not empty; every dictionary
    whose reference is not returned is left as it was. *)
Theorem detect_outliers_mutates_in_place (h h' : heap)
    (group_rows out : list loc) :
  detect_outliers to_numeric h group_rows = Ok (h', out) →
  sublist out group_rows
  ∧ (∀ l, l ∈ out →
       ∃ flags, flags ≠ []
                ∧ h' l = <["OUTLIER_REASONS" := String.concat "," flags]> (h l))
  ∧ (∀ l, l ∉ out → h' l = h l).
Proof.
  intros Hrun. unfold detect_outliers in Hrun.
  destruct (prepare_frames to_numeric h group_rows) as [[[df df_clean]|]|e] eqn:Hprep;
    cbn in Hrun; [| |discriminate].
  - destruct (detect_outliers_flagged to_numeric h group_rows df df_clean Hprep)
      as (h2 & Hrun2 & Hout & Hin).
    rewrite (detect_outliers_reached _ _ _ _ _ Hprep) in Hrun2.
    rewrite Hrun in Hrun2. injection Hrun2 as -> ->.
    pose proof (prepare_frames_reached _ _ _ _ _ Hprep) as (Hdf & _ & _).
    split; [rewrite Hdf; apply flagged_refs_sublist|].
    split; [|exact Hout].
    intros l Hl. pose proof Hl as Hl'. rewrite Hdf in Hl'.
    apply elem_of_flagged_refs in Hl' as (i & Hi & _ & _).
    destruct (Hin i l Hi Hl) as (_ & Hne & Hh'). eauto.
  - injection Hrun as <- <-. split; [apply sublist_nil_l|].
    split; [intros l Hl; by apply elem_of_nil in Hl|done].
Qed.

(** C2. When the fully valid records of a group have the payments
    10, 12, 13, 14, 15 and 100 (in any order), the quartiles of the
    payments are 12.25 and 14.75 and the bound is 18.5, in binary64 as
    in exact arithmetic.  The detector returns, and a record of the
    group is among the returned ones exactly when its list of flags is
    not empty; that list is what the detector writes to the record's
    [OUTLIER_REASONS].  Among the fully valid records exactly those
    that paid 100 have [high_total_paid] in the list; there is such a
    record, and each of them is returned with the flag written.  Any
    other line of the loop has the flag exactly when its payment is
    above 18.5. *)
Theorem six_payments_flag_only_100 (h : heap) (group_rows : list loc)
    df df_clean :
  prepare_frames to_numeric h group_rows = Ok (Some (df, df_clean)) →
  map (λ r, TOTAL_PAID (base r)) df_clean ≡ₚ six_payments →
  let b := compute_bounds df_clean in
  quantile (map (λ r, TOTAL_PAID (base r)) df_clean) (qd 1 4) = Fin (qd 49 4)
  ∧ quantile (map (λ r, TOTAL_PAID (base r)) df_clean) (qd 3 4) = Fin (qd 59 4)
  ∧ high_total_paid b = Fin (qd 37 2)
  ∧ (Binary64.quantile Binary64.six_payments 0.25 = 12.25%float
     ∧ Binary64.quantile Binary64.six_payments 0.75 = 14.75%float
     ∧ Binary64.get_upper_bound Binary64.six_payments = 18.5%float)
  ∧ ∃ h' : heap,
      detect_outliers to_numeric h group_rows
        = Ok (h', flagged_refs b group_rows df)
      ∧ (∃ i l, group_rows !! i = Some l
                ∧ fully_valid to_numeric (h l) = true
                ∧ TOTAL_PAID (base (metrics to_numeric i (h l))) = Fin (qz 100))
      ∧ ∀ i l, group_rows !! i = Some l →
          valid_numeric (coerce_row to_numeric i (h l)) = true →
          let r := metrics to_numeric i (h l) in
          (l ∈ flagged_refs b group_rows df ↔ flags_of b r ≠ [])
          ∧ (l ∈ flagged_refs b group_rows df →
               h' l !! "OUTLIER_REASONS" = Some (String.concat "," (flags_of b r)))
          ∧ ("high_total_paid" ∈ flags_of b r ↔
               exceeds (TOTAL_PAID (base r)) (Fin (qd 37 2)) = true)
          ∧ (fully_valid to_numeric (h l) = true →
               ("high_total_paid" ∈ flags_of b r ↔
                  TOTAL_PAID (base r) = Fin (qz 100))
               ∧ (TOTAL_PAID (base r) = Fin (qz 100) →
                    l ∈ flagged_refs b group_rows df
                    ∧ "high_total_paid" ∈ flags_of b r
                    ∧ h' l !! "OUTLIER_REASONS"
                      = Some (String.concat "," (flags_of b r)))).
Proof.
  intros Hprep Hperm b.
  assert (Hbound : high_total_paid b = Fin (qd 37 2)).
  { cbn. rewrite (get_upper_bound_perm _ _ Hperm). apply six_payments_bound. }
  split. { rewrite (quantile_perm _ _ _ Hperm). apply six_payments_q1. }
  split. { rewrite (quantile_perm _ _ _ Hperm). apply six_payments_q3. }
  split; [exact Hbound|].
  split. { repeat split; vm_compute; reflexivity. }
  destruct (detect_outliers_flagged to_numeric h group_rows df df_clean Hprep)
    as (h' & Hrun & Hout & Hin).
  pose proof (prepare_frames_reached _ _ _ _ _ Hprep) as (Hdf & Hclean & _).
  exists h'. split; [exact Hrun|].
  assert (Htest : ∀ r, "high_total_paid" ∈ flags_of b r
                       ↔ exceeds (TOTAL_PAID (base r)) (Fin (qd 37 2)) = true).
  { intros r. rewrite <- Hbound. apply flags_of_tests. }
  split.
  { assert (Hhundred : Fin (qz 100) ∈ map (λ r, TOTAL_PAID (base r)) df_clean).
    { rewrite Hperm. unfold six_payments. do 5 right. left. }
    apply list_elem_of_fmap in Hhundred as (r & Hpaid & Hr).
    rewrite Hclean in Hr. apply elem_of_frame_clean in Hr as [Hr Hratios].
    apply elem_of_frame_df in Hr as (i & l & Hi & -> & Hvalid).
    exists i, l. split; [exact Hi|]. split; [|done].
    unfold fully_valid. apply andb_true_intro. split; [exact Hvalid|exact Hratios]. }
  intros i l Hi Hvalid r.
  assert (Hiff : l ∈ flagged_refs b group_rows df ↔ flags_of b r ≠ []).
  { split.
    - intros Hl. by destruct (Hin i l Hi Hl) as (_ & Hne & _).
    - intros Hne. rewrite Hdf. apply elem_of_flagged_refs. eauto. }
  assert (Hwritten : l ∈ flagged_refs b group_rows df →
            h' l !! "OUTLIER_REASONS" = Some (String.concat "," (flags_of b r))).
  { intros Hl. destruct (Hin i l Hi Hl) as (_ & _ & ->).
    unfold annotate. apply lookup_insert_eq. }
  split; [exact Hiff|]. split; [exact Hwritten|]. split; [apply Htest|].
  intros Hfull.
  assert (Honly : "high_total_paid" ∈ flags_of b r
                  ↔ TOTAL_PAID (base r) = Fin (qz 100)).
  { rewrite Htest. apply six_payments_exceed.
    rewrite <- Hperm. apply list_elem_of_fmap. exists r. split; [reflexivity|].
    rewrite Hclean. apply elem_of_frame_clean. split.
    - apply elem_of_frame_df. eauto.
    - apply andb_prop in Hfull as [_ Hratios]. exact Hratios. }
  split; [exact Honly|].
  intros Hpaid. apply Honly in Hpaid.
  assert (Hl : l ∈ flagged_refs b group_rows df).
  { apply Hiff. intros Hnil. rewrite Hnil in Hpaid. by apply elem_of_nil in Hpaid. }
  auto.
Qed.

(** C4. When all records of a group have the same value for each of
    the four metrics, no record is flagged: the detector returns the
    empty result and leaves the store as it was.  Where the group
    reaches the thresholds and the shared value of a metric is finite,
    both quartiles of the metric equal the shared value, their
    difference is zero and the bound is the shared value, which the
    strict comparison does not let the value exceed. *)
Theorem identical_records_no_outliers (h : heap) (group_rows : list loc)
    (paid per_benef per_claim benef : fval) :
  Forall (λ l, has_numeric_fields (h l)) group_rows →
  (∀ i l, group_rows !! i = Some l →
     TOTAL_PAID (base (metrics to_numeric i (h l))) = paid
     ∧ PAID_PER_BENEF (metrics to_numeric i (h l)) = per_benef
     ∧ PAID_PER_CLAIM (metrics to_numeric i (h l)) = per_claim
     ∧ TOTAL_UNIQUE_BENEFICIARIES (base (metrics to_numeric i (h l))) = benef) →
  detect_outliers to_numeric h group_rows = Ok (h, [])
  ∧ ∀ df df_clean,
      prepare_frames to_numeric h group_rows = Ok (Some (df, df_clean)) →
      Forall (λ sv : list fval * fval,
                ∀ x, sv.2 = Fin x →
                  quantile sv.1 (qd 1 4) = Fin x
                  ∧ quantile sv.1 (qd 3 4) = Fin x
                  ∧ fsub (quantile sv.1 (qd 3 4)) (quantile sv.1 (qd 1 4)) = Fin 0%Qc
                  ∧ get_upper_bound sv.1 = Fin x
                  ∧ fgtb (Fin x) (get_upper_bound sv.1) = false)
        [(map (λ r, TOTAL_PAID (base r)) df_clean, paid);
         (map PAID_PER_BENEF df_clean, per_benef);
         (map PAID_PER_CLAIM df_clean, per_claim);
         (map (λ r, TOTAL_UNIQUE_BENEFICIARIES (base r)) df_clean, benef)].
Proof.
  intros Hfields Hsame.
  assert (Hdf : ∀ r, r ∈ frame_df to_numeric h group_rows →
            TOTAL_PAID (base r) = paid ∧ PAID_PER_BENEF r = per_benef
            ∧ PAID_PER_CLAIM r = per_claim
            ∧ TOTAL_UNIQUE_BENEFICIARIES (base r) = benef).
  { intros r Hr. apply elem_of_frame_df in Hr as (i & l & Hi & -> & _).
    by apply Hsame. }
  assert (Hseries : ∀ (f : mrow → fval) v,
            (∀ r, r ∈ frame_df to_numeric h group_rows → f r = v) →
            map f (frame_clean to_numeric h group_rows)
            = replicate (length (frame_clean to_numeric h group_rows)) v).
  { intros f v Hf. apply map_constant. intros r Hr. apply Hf.
    by apply elem_of_frame_clean in Hr as [Hr _]. }
  split.
  - destruct (decide (length group_rows < 4)) as [Hshort|Hlong].
    { apply detect_outliers_skipped. by apply prepare_frames_short. }
    unfold detect_outliers. rewrite prepare_frames_spec.
    2:{ apply numeric_columns_intro; [|exact Hfields].
        intros ->. cbn in Hlong. lia. }
    rewrite bind_Ok.
    destruct (length (frame_clean to_numeric h group_rows) <? 4)%nat; [reflexivity|].
    apply flag_loop_no_flags. intros r Hr.
    destruct (Hdf r Hr) as (Hp & Hb & Hc & Hu).
    apply flags_of_nil; cbn [compute_bounds high_total_paid high_paid_per_benef
                              high_paid_per_claim high_unique_benef].
    + rewrite (Hseries _ paid) by (intros r' Hr'; apply Hdf, Hr').
      rewrite Hp. apply exceeds_constant.
    + rewrite (Hseries _ per_benef) by (intros r' Hr'; apply Hdf, Hr').
      rewrite Hb. apply exceeds_constant.
    + rewrite (Hseries _ per_claim) by (intros r' Hr'; apply Hdf, Hr').
      rewrite Hc. apply exceeds_constant.
    + rewrite (Hseries _ benef) by (intros r' Hr'; apply Hdf, Hr').
      rewrite Hu. apply exceeds_constant.
  - intros df df_clean Hprep.
    apply prepare_frames_reached in Hprep as (-> & -> & Hlen).
    assert (Hone : ∀ (f : mrow → fval) v x,
              (∀ r, r ∈ frame_df to_numeric h group_rows → f r = v) →
              v = Fin x →
              let series := map f (frame_clean to_numeric h group_rows) in
              quantile series (qd 1 4) = Fin x
              ∧ quantile series (qd 3 4) = Fin x
              ∧ fsub (quantile series (qd 3 4)) (quantile series (qd 1 4)) = Fin 0%Qc
              ∧ get_upper_bound series = Fin x
              ∧ fgtb (Fin x) (get_upper_bound series) = false).
    { intros f v x Hf -> series. subst series. rewrite (Hseries f (Fin x) Hf).
      destruct (length (frame_clean to_numeric h group_rows)) as [|n] eqn:Hn;
        [lia|].
      rewrite get_upper_bound_fence by (rewrite length_replicate; lia).
      rewrite upper_fence_replicate_Fin.
      rewrite !quantile_replicate_Fin
        by apply quarter_bounds || apply three_quarter_bounds.
      repeat split; [|apply fgtb_irrefl].
      cbn. f_equal. ring. }
    apply Forall_cons_2; [|apply Forall_cons_2; [|apply Forall_cons_2;
      [|apply Forall_cons_2; [|apply Forall_nil_2]]]]; cbn [fst snd]; intros x Hx.
    + apply (Hone _ paid x); [intros r Hr; apply Hdf, Hr|exact Hx].
    + apply (Hone _ per_benef x); [intros r Hr; apply Hdf, Hr|exact Hx].
    + apply (Hone _ per_claim x); [intros r Hr; apply Hdf, Hr|exact Hx].
    + apply (Hone _ benef x); [intros r Hr; apply Hdf, Hr|exact Hx].
Qed.

(** C6. When the input ends with a group [g] (rows of one key that
    differs from the key before them), the driver hands [g] to the
    detector after the loop and takes its outliers in as it does for
    every earlier group: the run over [pre ++ g] ends in the state of
    the run over [pre], with [g] buffered and the outliers of [g]
    appended to the output rows and added to the count.  [main] writes
    these rows. *)
Theorem final_group_flushed (h h1 : heap) (pre g : list loc) (st1 : driver)
    (key : string * string) :
  run to_numeric h pre = Ok (h1, st1) →
  g ≠ [] →
  Forall (λ l, row_key (h l) = Ok key) g →
  current_key st1 ≠ Some key →
  run to_numeric h (pre ++ g) =
    (detect_outliers to_numeric h1 g
     ≫= λ '(h2, outliers), Ok (h2, extend (buffered st1 key g) outliers))
  ∧ main to_numeric h (pre ++ g) =
    (detect_outliers to_numeric h1 g
     ≫= λ '(h2, outliers),
       Ok (h2, {| written :=
                    if (total_outliers st1 + length outliers =? 0)%nat then None
                    else Some (map h2 (outlier_rows st1 ++ outliers));
                  rows_processed := total_rows_processed st1 + length g;
                  outliers_found := total_outliers st1 + length outliers |})).
Proof.
  intros Hrun Hg Hkeys Hcur.
  assert (Hflush : run to_numeric h (pre ++ g) =
            (detect_outliers to_numeric h1 g
             ≫= λ '(h2, outliers), Ok (h2, extend (buffered st1 key g) outliers))).
  { unfold run in *. rewrite loop_app.
    destruct (loop to_numeric h initial pre) as [[h0 st0]|e] eqn:Hloop;
      [|discriminate].
    rewrite bind_Ok in Hrun. rewrite !bind_Ok.
    destruct g as [|r g]; [done|]. clear Hg.
    inversion Hkeys as [|? ? Hr Hrest]; subst.
    assert (H0 : ∀ l k, k ≠ "OUTLIER_REASONS" → h0 l !! k = h l !! k)
      by (eapply loop_other_fields; eassumption).
    assert (H1 : ∀ l k, k ≠ "OUTLIER_REASONS" → h1 l !! k = h l !! k).
    { intros l k Hk. rewrite <- (H0 l k Hk). revert l k Hk.
      unfold final_group in Hrun.
      destruct (bool_decide (current_group_rows st0 ≠ [])).
      - by eapply collect_other_fields.
      - by injection Hrun as <- <-. }
    assert (Hkeys1 : Forall (λ l, row_key (h1 l) = Ok key) g).
    { eapply Forall_impl; [|exact Hrest]. intros l Hl. cbn in *.
      rewrite <- Hl. apply row_key_other_fields. apply H1. }
    cbn [loop]. unfold step.
    rewrite (row_key_other_fields (h r) (h0 r)) by apply H0.
    rewrite Hr, bind_Ok.
    assert (Hfirst :
      (if bool_decide (Some key ≠ current_key st0)
          && bool_decide (current_group_rows st0 ≠ [])
       then collect to_numeric h0 st0 ≫= λ '(h2, st2), Ok (h2, reset_group st2)
       else Ok (h0, st0))
      = Ok (h1, {| outlier_rows := outlier_rows st1;
                   current_group_rows := [];
                   current_key := current_key st1;
                   total_outliers := total_outliers st1;
                   total_rows_processed := total_rows_processed st1 |})).
    { unfold final_group in Hrun.
      destruct (decide (current_group_rows st0 = [])) as [Hempty|Hfull].
      - rewrite (bool_decide_eq_false_2 (current_group_rows st0 ≠ [])) in Hrun |- *
          by (intros H; by apply H).
        rewrite andb_false_r. injection Hrun as <- <-.
        destruct st0. cbn in *. by rewrite Hempty.
      - rewrite (bool_decide_eq_true_2 (current_group_rows st0 ≠ [])) in Hrun |- *
          by exact Hfull.
        destruct (collect_other_fields _ _ _ _ _ Hrun) as [Hsame _].
        rewrite (bool_decide_eq_true_2 (Some key ≠ current_key st0))
          by (rewrite <- Hsame; congruence).
        cbn [andb]. rewrite Hrun. reflexivity. }
    rewrite Hfirst, !bind_Ok. cbn [outlier_rows current_group_rows current_key
                                   total_outliers total_rows_processed app].
    rewrite (loop_same_key to_numeric g key) by (assumption || reflexivity).
    rewrite bind_Ok. unfold final_group.
    cbn [outlier_rows current_group_rows current_key total_outliers
         total_rows_processed app].
    rewrite bool_decide_eq_true_2 by discriminate.
    rewrite collect_spec.
    cbn [outlier_rows current_group_rows current_key total_outliers
         total_rows_processed app].
    destruct (detect_outliers to_numeric h1 (r :: g)) as [[h2 outliers]|e];
      [|reflexivity].
    rewrite !bind_Ok. unfold extend, buffered. cbn. do 3 f_equal. lia. }
  split; [exact Hflush|].
  unfold main. rewrite Hflush.
  destruct (detect_outliers to_numeric h1 g) as [[h2 outliers]|e]; reflexivity.
Qed.

End Claims.

(** C8, amended. The chunked detector flags a record exactly when
    the group has at least four rows, the record is in the group and
    its payment is strictly above the upper fence of the payments of
    the group; no other column has a say, and a group of fewer than
    four rows gets no flag.  This holds with exact numbers and in
    binary64.  The streaming detector raises a flag for any of four
    tests.  The two disagree on the group [ex_one_claim], where the
    streaming detector returns the last record and the chunked one
    returns nothing. *)
Theorem variants_not_equivalent :
  (∀ (A : Type) (total_paid : A → fval) (group : list A) (r : A),
     Chunked.upper_bound total_paid group = upper_fence (map total_paid group)
     ∧ (r ∈ Chunked.detect_outliers total_paid group ↔
          4 ≤ length group
          ∧ r ∈ group
          ∧ fgtb (total_paid r) (Chunked.upper_bound total_paid group) = true))
  ∧ (∀ (A : Type) (total_paid : A → float) (group : list A) (r : A),
       r ∈ Binary64.detect_outliers total_paid group ↔
         4 ≤ length group
         ∧ r ∈ group
         ∧ PrimFloat.ltb (Binary64.upper_bound total_paid group) (total_paid r)
           = true)
  ∧ (∀ (b : bounds) (r : mrow),
       flags_of b r ≠ [] ↔
         exceeds (TOTAL_PAID (base r)) (high_total_paid b) = true
         ∨ exceeds (PAID_PER_BENEF r) (high_paid_per_benef b) = true
         ∨ exceeds (PAID_PER_CLAIM r) (high_paid_per_claim b) = true
         ∨ exceeds (TOTAL_UNIQUE_BENEFICIARIES (base r)) (high_unique_benef b) = true)
  ∧ ∃ h' : heap,
      detect_outliers parse_number (heap_of ex_one_claim) (seq 0 6) = Ok (h', [5])
      ∧ h' 5 !! "OUTLIER_REASONS" = Some "high_paid_per_claim"
      ∧ Chunked.detect_outliers
          (λ l, numeric_cell parse_number (heap_of ex_one_claim l) "TOTAL_PAID")
          (seq 0 6) = []
      ∧ Binary64.detect_outliers (λ v : float, v) (replicate 6 10%float) = [].
Proof.
  split; [|split; [|split]].
  - intros A total_paid group r. split; [reflexivity|].
    unfold Chunked.detect_outliers.
    destruct (length group <? 4)%nat eqn:Hlen.
    + apply Nat.ltb_lt in Hlen. split; [intros H; by apply elem_of_nil in H|].
      intros [Hge _]. lia.
    + apply Nat.ltb_ge in Hlen. rewrite list_elem_of_filter. tauto.
  - intros A total_paid group r. unfold Binary64.detect_outliers.
    destruct (length group <? 4)%nat eqn:Hlen.
    + apply Nat.ltb_lt in Hlen. split; [intros H; by apply elem_of_nil in H|].
      intros [Hge _]. lia.
    + apply Nat.ltb_ge in Hlen. rewrite list_elem_of_filter. tauto.
  - intros b r. unfold flags_of, flag_if.
    destruct (exceeds _ _), (exceeds _ _), (exceeds _ _), (exceeds _ _); cbn;
      split; intros H; try discriminate; try tauto; try congruence;
      destruct H as [H|[H|[H|H]]]; discriminate.
  - assert (Hprep : prepare_frames parse_number (heap_of ex_one_claim) (seq 0 6)
                    = Ok (Some (frame_df parse_number (heap_of ex_one_claim) (seq 0 6),
                                frame_clean parse_number (heap_of ex_one_claim) (seq 0 6))))
      by (vm_compute; reflexivity).
    destruct (detect_outliers_flagged _ _ _ _ _ Hprep) as (h' & Hrun & _ & Hin).
    assert (Hrefs : flagged_refs
                      (compute_bounds
                         (frame_clean parse_number (heap_of ex_one_claim) (seq 0 6)))
                      (seq 0 6)
                      (frame_df parse_number (heap_of ex_one_claim) (seq 0 6))
                    = [5]) by (vm_compute; reflexivity).
    rewrite Hrefs in Hrun, Hin.
    exists h'. split; [exact Hrun|].
    split; [|split; vm_compute; reflexivity].
    destruct (Hin 5 5 eq_refl) as (_ & _ & ->); [by left|].
    unfold annotate. rewrite lookup_insert_eq. vm_compute. reflexivity.
Qed.

(** C8 as stated fails on [Binary64.ex_three_large], a group of three
    rows.  In binary64 both quartiles of the payments round to 1e16,
    so the fence is 1e16 and the third payment is strictly above it;
    the chunked detector returns before it computes the fence and
    flags nothing. *)
Lemma small_group_above_fence :
  Binary64.upper_bound (λ v : float, v) Binary64.ex_three_large = 1e16%float
  ∧ Binary64.detect_outliers (λ v : float, v) Binary64.ex_three_large = []
  ∧ ¬ (∀ r : float,
         r ∈ Binary64.detect_outliers (λ v : float, v) Binary64.ex_three_large ↔
           r ∈ Binary64.ex_three_large
           ∧ PrimFloat.ltb
               (Binary64.upper_bound (λ v : float, v) Binary64.ex_three_large) r
             = true).
Proof.
  split; [vm_compute; reflexivity|]. split; [reflexivity|].
  intros Hclaim.
  assert (Hin : 10000000000000002%float
                  ∈ Binary64.detect_outliers (λ v : float, v) Binary64.ex_three_large).
  { apply Hclaim. split; [|vm_compute; reflexivity].
    unfold Binary64.ex_three_large. do 2 right. left. }
  by apply elem_of_nil in Hin.
Qed.

Lemma claim_row_fields (code month paid benef claims : string) :
  has_numeric_fields (claim_row code month paid benef claims).
Proof.
  unfold has_numeric_fields, claim_row. repeat split; eexists; by simplify_map_eq.
Qed.

Lemma small_group_no_outliers_witness :
  detect_outliers parse_number (heap_of ex_three_valid) (seq 0 5)
  = Ok (heap_of ex_three_valid, []).
Proof.
  apply small_group_no_outliers.
  - repeat constructor; apply claim_row_fields.
  - right. right. vm_compute. lia.
Defined.

Lemma fallback_unreachable_witness :
  4 ≤ length (frame_clean parse_number (heap_of ex_mixed) (seq 0 7)).
Proof.
  apply (fallback_unreachable parse_number (heap_of ex_mixed) (seq 0 7)
           (frame_df parse_number (heap_of ex_mixed) (seq 0 7))).
  vm_compute. reflexivity.
Defined.

Lemma survivors_tested_on_four_bounds_witness :
  PAID_PER_BENEF (metrics parse_number 5 (heap_of ex_zero_benef 5)) = NaN
  ∧ "high_total_paid"
      ∈ flags_of
          (compute_bounds (frame_clean parse_number (heap_of ex_zero_benef) (seq 0 6)))
          (metrics parse_number 5 (heap_of ex_zero_benef 5)).
Proof.
  split; [vm_compute; reflexivity|].
  assert (Hprep : prepare_frames parse_number (heap_of ex_zero_benef) (seq 0 6)
                  = Ok (Some (frame_df parse_number (heap_of ex_zero_benef) (seq 0 6),
                              frame_clean parse_number (heap_of ex_zero_benef) (seq 0 6))))
    by (vm_compute; reflexivity).
  pose proof (survivors_tested_on_four_bounds parse_number _ _ _ _ Hprep 5 5
                eq_refl eq_refl) as (_ & Hpaid & _).
  apply Hpaid. split; vm_compute; reflexivity.
Defined.



(** C7 as stated fails on a record that already has a field named
    [OUTLIER_REASONS]: the flagged record loses the value it came
    with. *)
Lemma existing_reasons_overwritten :
  ¬ (∀ (h' : heap) (out : list loc) (l : loc),
       detect_outliers parse_number (heap_of ex_rerun) (seq 0 6) = Ok (h', out) →
       l ∈ out →
       ∀ k v, heap_of ex_rerun l !! k = Some v → h' l !! k = Some v).
Proof.
  intros Hclaim.
  assert (Hprep : prepare_frames parse_number (heap_of ex_rerun) (seq 0 6)
                  = Ok (Some (frame_df parse_number (heap_of ex_rerun) (seq 0 6),
                              frame_clean parse_number (heap_of ex_rerun) (seq 0 6))))
    by (vm_compute; reflexivity).
  destruct (detect_outliers_flagged _ _ _ _ _ Hprep) as (h' & Hrun & _ & Hin).
  assert (Hl : 5 ∈ flagged_refs
                     (compute_bounds (frame_clean parse_number (heap_of ex_rerun) (seq 0 6)))
                     (seq 0 6) (frame_df parse_number (heap_of ex_rerun) (seq 0 6))).
  { apply elem_of_flagged_refs. exists 5.
    split; [reflexivity|]. split; [vm_compute; reflexivity|].
    vm_compute. discriminate. }
  assert (Hold : heap_of ex_rerun 5 !! "OUTLIER_REASONS" = Some "checked")
    by (vm_compute; reflexivity).
  pose proof (Hclaim h' _ 5 Hrun Hl _ _ Hold) as Hkept.
  destruct (Hin 5 5 eq_refl Hl) as (_ & _ & Hh').
  rewrite Hh' in Hkept. unfold annotate in Hkept.
  rewrite lookup_insert_eq in Hkept. vm_compute in Hkept. discriminate.
Qed.

Lemma emitted_rows_keep_other_fields_witness :
  ∃ h' : heap,
    detect_outliers parse_number (heap_of ex_six) (seq 0 6) = Ok (h', [5])
    ∧ h' 5 !! "OUTLIER_REASONS"
      = Some "high_total_paid,high_paid_per_benef,high_paid_per_claim"
    ∧ h' 5 !! "TOTAL_PAID" = Some "100".
Proof.
  assert (Hprep : prepare_frames parse_number (heap_of ex_six) (seq 0 6)
                  = Ok (Some (frame_df parse_number (heap_of ex_six) (seq 0 6),
                              frame_clean parse_number (heap_of ex_six) (seq 0 6))))
    by (vm_compute; reflexivity).
  destruct (detect_outliers_flagged _ _ _ _ _ Hprep) as (h' & Hrun & _).
  assert (Hrefs : flagged_refs
                    (compute_bounds (frame_clean parse_number (heap_of ex_six) (seq 0 6)))
                    (seq 0 6) (frame_df parse_number (heap_of ex_six) (seq 0 6))
                  = [5]) by (vm_compute; reflexivity).
  rewrite Hrefs in Hrun.
  exists h'. split; [exact Hrun|].
  destruct (emitted_rows_keep_other_fields parse_number _ _ _ _ Hrun 5 5 eq_refl)
    as (_ & _ & Hkeep).
  destruct Hkeep as (Hreasons & Hother & _); [by left|].
  split.
  - rewrite Hreasons. vm_compute. reflexivity.
  - rewrite Hother by discriminate. vm_compute. reflexivity.
Defined.

Lemma detect_outliers_mutates_in_place_witness :
  ∃ h' : heap,
    detect_outliers parse_number (heap_of ex_six) (seq 0 6) = Ok (h', [5])
    ∧ sublist [5] (seq 0 6)
    ∧ h' 0 = heap_of ex_six 0.
Proof.
  assert (Hprep : prepare_frames parse_number (heap_of ex_six) (seq 0 6)
                  = Ok (Some (frame_df parse_number (heap_of ex_six) (seq 0 6),
                              frame_clean parse_number (heap_of ex_six) (seq 0 6))))
    by (vm_compute; reflexivity).
  destruct (detect_outliers_flagged _ _ _ _ _ Hprep) as (h' & Hrun & _).
  assert (Hrefs : flagged_refs
                    (compute_bounds (frame_clean parse_number (heap_of ex_six) (seq 0 6)))
                    (seq 0 6) (frame_df parse_number (heap_of ex_six) (seq 0 6))
                  = [5]) by (vm_compute; reflexivity).
  rewrite Hrefs in Hrun.
  exists h'. split; [exact Hrun|].
  destruct (detect_outliers_mutates_in_place parse_number _ _ _ _ Hrun)
    as (Hsub & _ & Hrest).
  split; [exact Hsub|]. apply Hrest.
  intros H. apply list_elem_of_singleton in H. discriminate.
Defined.

Lemma six_payments_flag_only_100_witness :
  high_total_paid
    (compute_bounds (frame_clean parse_number (heap_of ex_six) (seq 0 6)))
  = Fin (qd 37 2)
  ∧ ∃ h' : heap,
      detect_outliers parse_number (heap_of ex_six) (seq 0 6) = Ok (h', [5])
      ∧ "high_total_paid"
          ∈ flags_of
              (compute_bounds (frame_clean parse_number (heap_of ex_six) (seq 0 6)))
              (metrics parse_number 5 (heap_of ex_six 5))
      ∧ h' 5 !! "OUTLIER_REASONS"
        = Some "high_total_paid,high_paid_per_benef,high_paid_per_claim"
      ∧ "high_total_paid"
          ∉ flags_of
              (compute_bounds (frame_clean parse_number (heap_of ex_six) (seq 0 6)))
              (metrics parse_number 4 (heap_of ex_six 4)).
Proof.
  assert (Hprep : prepare_frames parse_number (heap_of ex_six) (seq 0 6)
                  = Ok (Some (frame_df parse_number (heap_of ex_six) (seq 0 6),
                              frame_clean parse_number (heap_of ex_six) (seq 0 6))))
    by (vm_compute; reflexivity).
  assert (Hpaid : map (λ r, TOTAL_PAID (base r))
                    (frame_clean parse_number (heap_of ex_six) (seq 0 6))
                  ≡ₚ six_payments)
    by (vm_compute; reflexivity).
  pose proof (six_payments_flag_only_100 parse_number _ _ _ _ Hprep Hpaid) as H.
  cbv zeta in H.
  destruct H as (_ & _ & Hbound & _ & h' & Hrun & _ & Hrows).
  assert (Hrefs : flagged_refs
                    (compute_bounds (frame_clean parse_number (heap_of ex_six) (seq 0 6)))
                    (seq 0 6) (frame_df parse_number (heap_of ex_six) (seq 0 6))
                  = [5]) by (vm_compute; reflexivity).
  rewrite Hrefs in Hrun.
  split; [exact Hbound|]. exists h'. split; [exact Hrun|].
  destruct (Hrows 5 5 eq_refl eq_refl) as (_ & _ & _ & Hfull).
  destruct (Hfull eq_refl) as (_ & Hhundred).
  destruct Hhundred as (_ & Hflag & Hwritten); [vm_compute; reflexivity|].
  split; [exact Hflag|]. split.
  - rewrite Hwritten. vm_compute. reflexivity.
  - destruct (Hrows 4 4 eq_refl eq_refl) as (_ & _ & _ & Hfour).
    destruct (Hfour eq_refl) as (Honly & _). rewrite Honly.
    apply Fin_neq. vm_compute. discriminate.
Defined.

Lemma identical_records_no_outliers_witness :
  detect_outliers parse_number (heap_of ex_identical) (seq 0 5)
  = Ok (heap_of ex_identical, []).
Proof.
  apply (identical_records_no_outliers parse_number (heap_of ex_identical) (seq 0 5)
           (TOTAL_PAID (base (metrics parse_number 0 (heap_of ex_identical 0))))
           (PAID_PER_BENEF (metrics parse_number 0 (heap_of ex_identical 0)))
           (PAID_PER_CLAIM (metrics parse_number 0 (heap_of ex_identical 0)))
           (TOTAL_UNIQUE_BENEFICIARIES
              (base (metrics parse_number 0 (heap_of ex_identical 0))))).
  - repeat constructor; apply claim_row_fields.
  - intros i l Hl. apply lookup_seq in Hl as [-> Hlt]. cbn [Nat.add].
    do 5 (destruct i as [|i]; [vm_compute; repeat split|]). lia.
Defined.



(** * Further properties of the code *)

(** ** Exceptions of the streaming detector *)

Section DetectorErrors.

Variable to_numeric : string → fval.

Lemma missing_column_None (frame : list row) :
  missing_column frame = None ↔ numeric_columns frame = true.
Proof.
  unfold missing_column, numeric_columns.
  destruct (has_column frame "TOTAL_PAID"),
    (has_column frame "TOTAL_UNIQUE_BENEFICIARIES"),
    (has_column frame "TOTAL_CLAIMS"); cbn; split; congruence.
Qed.

Lemma coerce_numeric_missing (frame : list row) (col : string) :
  missing_column frame = Some col →
  coerce_numeric to_numeric frame = Raise (KeyError col).
Proof.
  unfold missing_column, coerce_numeric, require_column.
  destruct (has_column frame "TOTAL_PAID"); cbn; [|by intros [= <-]].
  destruct (has_column frame "TOTAL_UNIQUE_BENEFICIARIES"); cbn; [|by intros [= <-]].
  destruct (has_column frame "TOTAL_CLAIMS"); cbn; [discriminate|by intros [= <-]].
Qed.

(** With the three columns present, or fewer than four rows, the
    detector returns. *)
Lemma detect_outliers_returns (h : heap) (group_rows : list loc) :
  length group_rows < 4 ∨ numeric_columns (DataFrame h group_rows) = true →
  ∃ (h' : heap) (out : list loc),
    detect_outliers to_numeric h group_rows = Ok (h', out).
Proof.
  intros [Hshort|Hcols].
  { exists h, []. apply detect_outliers_skipped. by apply prepare_frames_short. }
  unfold detect_outliers. rewrite prepare_frames_spec by exact Hcols.
  rewrite bind_Ok.
  destruct (length (frame_clean to_numeric h group_rows) <? 4)%nat; [by eauto|].
  destruct (flag_loop_spec
              (compute_bounds (frame_clean to_numeric h group_rows)) group_rows
              (frame_df to_numeric h group_rows)
              (frame_df_idx to_numeric h group_rows) h [])
    as (h' & Hrun & _).
  eauto.
Qed.

(** X1. The only exception [detect_outliers] lets out is the
    [KeyError] of the first numeric column missing from a group of
    four or more rows; it never fails on an index or a division. *)
Theorem detect_outliers_raises_iff (h : heap) (group_rows : list loc) (e : exn) :
  detect_outliers to_numeric h group_rows = Raise e ↔
  4 ≤ length group_rows
  ∧ ∃ col, missing_column (DataFrame h group_rows) = Some col ∧ e = KeyError col.
Proof.
  destruct (decide (length group_rows < 4)) as [Hshort|Hlong].
  { destruct (detect_outliers_returns h group_rows (or_introl Hshort))
      as (h' & out & ->).
    split; [discriminate|]. intros [? _]. lia. }
  destruct (missing_column (DataFrame h group_rows)) as [col|] eqn:Hmiss.
  - assert (Hraise : detect_outliers to_numeric h group_rows = Raise (KeyError col)).
    { unfold detect_outliers, prepare_frames.
      replace (length group_rows <? 4)%nat with false
        by (symmetry; apply Nat.ltb_ge; lia).
      by rewrite (coerce_numeric_missing _ _ Hmiss). }
    rewrite Hraise. split.
    + intros [= <-]. split; [lia|eauto].
    + intros (_ & col' & [= <-] & ->). reflexivity.
  - apply missing_column_None in Hmiss.
    destruct (detect_outliers_returns h group_rows (or_intror Hmiss))
      as (h' & out & ->).
    split; [discriminate|]. intros (_ & col & ? & _). discriminate.
Qed.

End DetectorErrors.

(** ** The driver over a whole input *)

Section DriverGroups.

Variable to_numeric : string → fval.

(** The rows of a new key: the pending group is handed to the detector
    first, then the rows are buffered. *)
Lemma loop_new_group (g : list loc) (key : string * string) (h : heap)
    (st : driver) :
  g ≠ [] →
  Forall (λ l, row_key (h l) = Ok key) g →
  current_key st ≠ Some key →
  loop to_numeric h st g =
    final_group to_numeric h st ≫= λ '(h1, st1), Ok (h1, buffered st1 key g).
Proof.
  intros Hg Hkeys Hcur. destruct g as [|r g]; [done|]. clear Hg.
  inversion Hkeys as [|? ? Hr Hrest]; subst.
  cbn [loop]. unfold step, final_group. rewrite Hr, bind_Ok.
  destruct (decide (current_group_rows st = [])) as [Hempty|Hfull].
  - rewrite (bool_decide_eq_false_2 (current_group_rows st ≠ []))
      by (intros H; by apply H).
    rewrite andb_false_r, !bind_Ok.
    rewrite (loop_same_key to_numeric g key) by (assumption || reflexivity).
    unfold buffered. cbn. rewrite Hempty. cbn. do 3 f_equal. lia.
  - rewrite (bool_decide_eq_true_2 (current_group_rows st ≠ [])) by exact Hfull.
    rewrite (bool_decide_eq_true_2 (Some key ≠ current_key st)) by congruence.
    cbn [andb].
    destruct (collect to_numeric h st) as [[h1 st1]|e] eqn:Hcollect; [|reflexivity].
    rewrite !bind_Ok.
    destruct (collect_other_fields _ _ _ _ _ Hcollect) as [_ Hfields].
    rewrite (loop_same_key to_numeric g key); [| |reflexivity].
    + unfold buffered, reset_group. cbn. do 3 f_equal. lia.
    + eapply Forall_impl; [|exact Hrest]. intros l Hl. cbn in *.
      rewrite <- Hl. apply row_key_other_fields. apply Hfields.
Qed.

Lemma step_current_key (h h' : heap) (st st' : driver) (r : loc)
    (key : string * string) :
  step to_numeric h st r = Ok (h', st') →
  row_key (h r) = Ok key → current_key st' = Some key.
Proof.
  unfold step. intros Hstep Hkey. rewrite Hkey, bind_Ok in Hstep.
  destruct (bool_decide (Some key ≠ current_key st)
            && bool_decide (current_group_rows st ≠ [])).
  - destruct (collect to_numeric h st) as [[h1 st1]|e]; [|discriminate].
    rewrite !bind_Ok in Hstep. by injection Hstep as <- <-.
  - rewrite !bind_Ok in Hstep. by injection Hstep as <- <-.
Qed.

(** After the loop the current key is the key of the last row read. *)
Lemma loop_current_key (rs : list loc) (r : loc) (h h' : heap)
    (st st' : driver) (key : string * string) :
  loop to_numeric h st (rs ++ [r]) = Ok (h', st') →
  row_key (h r) = Ok key → current_key st' = Some key.
Proof.
  rewrite loop_app. intros Hloop Hkey.
  destruct (loop to_numeric h st rs) as [[h1 st1]|e] eqn:Hrs; [|discriminate].
  rewrite bind_Ok in Hloop. cbn [loop] in Hloop.
  destruct (step to_numeric h1 st1 r) as [[h2 st2]|e] eqn:Hstep; [|discriminate].
  rewrite bind_Ok in Hloop. injection Hloop as <- <-.
  eapply step_current_key; [exact Hstep|].
  rewrite <- Hkey. apply row_key_other_fields.
  eapply loop_other_fields. exact Hrs.
Qed.

Lemma final_group_current_key (h h' : heap) (st st' : driver) :
  final_group to_numeric h st = Ok (h', st') → current_key st' = current_key st.
Proof.
  unfold final_group. destruct (bool_decide (current_group_rows st ≠ [])).
  - intros H. by apply collect_other_fields in H as [-> _].
  - by intros [= <- <-].
Qed.

Lemma final_group_other_fields (h h' : heap) (st st' : driver) :
  final_group to_numeric h st = Ok (h', st') →
  ∀ l k, k ≠ "OUTLIER_REASONS" → h' l !! k = h l !! k.
Proof.
  unfold final_group. destruct (bool_decide (current_group_rows st ≠ [])).
  - intros H. by apply collect_other_fields in H as [_ ?].
  - by intros [= <- <-].
Qed.

Lemma detect_groups_app (h : heap) (gs1 gs2 : list (list loc)) :
  detect_groups to_numeric h (gs1 ++ gs2) =
    detect_groups to_numeric h gs1 ≫= λ '(h1, o1),
    detect_groups to_numeric h1 gs2 ≫= λ '(h2, o2), Ok (h2, o1 ++ o2).
Proof.
  revert h. induction gs1 as [|g gs1 IH]; intros h; cbn [app detect_groups].
  { rewrite bind_Ok.
    by destruct (detect_groups to_numeric h gs2) as [[h2 o2]|e]. }
  destruct (detect_outliers to_numeric h g) as [[h1 o1]|e]; [|reflexivity].
  rewrite !bind_Ok, IH.
  destruct (detect_groups to_numeric h1 gs1) as [[h2 o2]|e]; [|reflexivity].
  rewrite !bind_Ok.
  destruct (detect_groups to_numeric h2 gs2) as [[h3 o3]|e]; [|reflexivity].
  rewrite !bind_Ok. by rewrite app_assoc.
Qed.

Lemma detect_groups_other_fields (gs : list (list loc)) (h h' : heap)
    (out : list loc) :
  detect_groups to_numeric h gs = Ok (h', out) →
  ∀ l k, k ≠ "OUTLIER_REASONS" → h' l !! k = h l !! k.
Proof.
  revert h out. induction gs as [|g gs IH]; intros h out; cbn [detect_groups].
  { by intros [= <- <-]. }
  destruct (detect_outliers to_numeric h g) as [[h1 o1]|e] eqn:Hg; [|discriminate].
  rewrite bind_Ok.
  destruct (detect_groups to_numeric h1 gs) as [[h2 o2]|e] eqn:Hgs; [|discriminate].
  rewrite bind_Ok. intros [= <- <-] l k Hk.
  rewrite (IH _ _ Hgs l k Hk). by eapply detect_outliers_other_fields.
Qed.

Lemma distinct_neighbours_snoc {K : Type} (ks : list K) (k : K) :
  distinct_neighbours (ks ++ [k]) ↔
  distinct_neighbours ks ∧ list.last ks ≠ Some k.
Proof.
  induction ks as [|k1 [|k2 ks] IH]; cbn in *.
  - split; [done|tauto].
  - split.
    + intros [Hne _]. split; [done|]. intros [= ->]. by apply Hne.
    + intros [_ Hne]. split; [|done]. intros ->. by apply Hne.
  - rewrite IH. tauto.
Qed.

End DriverGroups.

Section DriverWhole.

Variable to_numeric : string → fval.

Lemma keyed_groups_app (h : heap) (kgs1 kgs2 : list ((string * string) * list loc)) :
  keyed_groups h (kgs1 ++ kgs2) ↔ keyed_groups h kgs1 ∧ keyed_groups h kgs2.
Proof. unfold keyed_groups. apply Forall_app. Qed.

(** After the loop over keyed groups the current key is the key of the
    last group. *)
Lemma loop_groups_current_key (h h0 : heap) (st0 : driver)
    (kgs : list ((string * string) * list loc)) :
  keyed_groups h kgs →
  loop to_numeric h initial (concat (map snd kgs)) = Ok (h0, st0) →
  current_key st0 = list.last (map fst kgs).
Proof.
  destruct kgs as [|[k g] kgs _] using rev_ind.
  { cbn. by intros _ [= <- <-]. }
  intros Hkeyed Hloop.
  apply keyed_groups_app in Hkeyed as [_ Hlast].
  inversion Hlast as [|? ? [Hne Hkeys] _]; subst. cbn [fst snd] in *.
  rewrite map_app. cbn [map fst]. rewrite last_snoc.
  rewrite map_app, concat_app in Hloop. cbn in Hloop. rewrite app_nil_r in Hloop.
  destruct g as [|r g _] using rev_ind; [done|].
  apply Forall_app in Hkeys as [_ Hr].
  inversion Hr as [|? ? Hkey _]; subst.
  rewrite app_assoc in Hloop. by eapply loop_current_key.
Qed.

(** X2. For an input made of consecutive groups, each under one key
    that differs from the key of the group before it, the driver hands
    the groups to the detector one after the other, the last one
    included, and collects their outliers in that order; groups that
    share a key but are not adjacent are evaluated separately. *)
Theorem run_by_groups (h : heap) (kgs : list ((string * string) * list loc)) :
  keyed_groups h kgs →
  distinct_neighbours (map fst kgs) →
  run to_numeric h (concat (map snd kgs)) =
    detect_groups to_numeric h (map snd kgs) ≫= λ '(h', outliers),
      Ok (h', {| outlier_rows := outliers;
                 current_group_rows := default [] (list.last (map snd kgs));
                 current_key := list.last (map fst kgs);
                 total_outliers := length outliers;
                 total_rows_processed := length (concat (map snd kgs)) |}).
Proof.
  induction kgs as [|[k g] kgs IH] using rev_ind; [reflexivity|].
  intros Hkeyed Hdistinct.
  pose proof Hkeyed as Hall.
  apply keyed_groups_app in Hkeyed as [Hkgs Hlast].
  inversion Hlast as [|? ? [Hne Hkeys] _]; subst. cbn [fst snd] in *.
  rewrite map_app in Hdistinct. cbn in Hdistinct.
  apply distinct_neighbours_snoc in Hdistinct as [Hdistinct Hnew].
  specialize (IH Hkgs Hdistinct).
  rewrite !map_app, concat_app. cbn [map concat fst snd].
  rewrite !last_snoc. cbn [default].
  rewrite app_nil_r, detect_groups_app.
  unfold run in *. rewrite loop_app.
  destruct (loop to_numeric h initial (concat (map snd kgs))) as [[h0 st0]|e] eqn:Hloop.
  - rewrite bind_Ok in IH. rewrite bind_Ok.
    rewrite (loop_new_group to_numeric g k); [|exact Hne| |].
    + rewrite IH.
      destruct (detect_groups to_numeric h (map snd kgs)) as [[h1 o1]|e];
        [|reflexivity].
      rewrite !bind_Ok. unfold final_group. cbn [current_group_rows buffered].
      rewrite bool_decide_eq_true_2 by exact Hne.
      rewrite collect_spec. cbn [current_group_rows buffered detect_groups].
      destruct (detect_outliers to_numeric h1 g) as [[h2 o2]|e]; [|reflexivity].
      rewrite !bind_Ok. unfold extend, buffered. cbn.
      rewrite app_nil_r, !length_app. reflexivity.
    + eapply Forall_impl; [|exact Hkeys]. intros l Hl. cbn in *.
      rewrite <- Hl. apply row_key_other_fields.
      eapply loop_other_fields. exact Hloop.
    + by rewrite (loop_groups_current_key h h0 st0 kgs Hkgs Hloop).
  - cbn in IH |- *.
    destruct (detect_groups to_numeric h (map snd kgs)) as [[h1 o1]|e'];
      [discriminate|].
    cbn in IH |- *. exact IH.
Qed.

Lemma collect_counts (h h' : heap) (st st' : driver) :
  collect to_numeric h st = Ok (h', st') →
  total_outliers st = length (outlier_rows st) →
  total_outliers st' = length (outlier_rows st')
  ∧ total_rows_processed st' = total_rows_processed st.
Proof.
  rewrite collect_spec.
  destruct (detect_outliers to_numeric h (current_group_rows st))
    as [[h2 outliers]|e]; [|discriminate].
  rewrite bind_Ok. intros [= <- <-] Hinv. unfold extend. cbn.
  rewrite length_app. lia.
Qed.

Lemma step_counts (h h' : heap) (st st' : driver) (r : loc) :
  step to_numeric h st r = Ok (h', st') →
  total_outliers st = length (outlier_rows st) →
  total_outliers st' = length (outlier_rows st')
  ∧ total_rows_processed st' = total_rows_processed st + 1.
Proof.
  unfold step. destruct (row_key (h r)) as [key|e]; [|discriminate].
  rewrite bind_Ok.
  destruct (bool_decide (Some key ≠ current_key st)
            && bool_decide (current_group_rows st ≠ [])).
  - destruct (collect to_numeric h st) as [[h1 st1]|e] eqn:Hc; [|discriminate].
    rewrite !bind_Ok. intros [= <- <-] Hinv.
    destruct (collect_counts _ _ _ _ Hc Hinv) as [H1 H2]. cbn. lia.
  - rewrite !bind_Ok. intros [= <- <-] Hinv. cbn. lia.
Qed.

Lemma loop_counts (reader : list loc) (h h' : heap) (st st' : driver) :
  loop to_numeric h st reader = Ok (h', st') →
  total_outliers st = length (outlier_rows st) →
  total_outliers st' = length (outlier_rows st')
  ∧ total_rows_processed st' = total_rows_processed st + length reader.
Proof.
  revert h st. induction reader as [|r reader IH]; intros h st; cbn [loop].
  { intros [= <- <-] Hinv. cbn. lia. }
  destruct (step to_numeric h st r) as [[h1 st1]|e] eqn:Hstep; [|discriminate].
  rewrite bind_Ok. intros Hloop Hinv.
  destruct (step_counts _ _ _ _ _ Hstep Hinv) as [H1 H2].
  destruct (IH _ _ Hloop H1) as [H3 H4]. cbn. lia.
Qed.


(** X4. A row without a grouping key stops the run with the
    [KeyError] of the first key it lacks; the error comes before the
    pending group is evaluated, whatever follows the row. *)
Theorem main_missing_key (h h1 : heap) (st1 : driver) (pre rest : list loc)
    (r : loc) (e : exn) :
  loop to_numeric h initial pre = Ok (h1, st1) →
  row_key (h r) = Raise e →
  main to_numeric h (pre ++ r :: rest) = Raise e
  ∧ (h r !! "HCPCS_CODE" = None → e = KeyError "HCPCS_CODE")
  ∧ (is_Some (h r !! "HCPCS_CODE") → e = KeyError "CLAIM_FROM_MONTH").
Proof.
  intros Hloop Hkey. split.
  - unfold main, run. rewrite loop_app, Hloop, bind_Ok. cbn [loop]. unfold step.
    rewrite (row_key_other_fields (h r) (h1 r))
      by (eapply loop_other_fields; exact Hloop).
    by rewrite Hkey.
  - unfold row_key in Hkey.
    destruct (h r !! "HCPCS_CODE") as [code|].
    + destruct (h r !! "CLAIM_FROM_MONTH"); [discriminate|].
      injection Hkey as <-. split; [discriminate|done].
    + injection Hkey as <-. split; [done|]. by intros [? ?].
Qed.

End DriverWhole.

(** ** The chunked detector *)

Lemma upper_fence_perm (s1 s2 : list fval) :
  s1 ≡ₚ s2 → upper_fence s1 = upper_fence s2.
Proof.
  intros H. unfold upper_fence. by rewrite !(quantile_perm s1 s2) by exact H.
Qed.

Section ChunkedDetector.

Context {A : Type}.
Variable total_paid : A → fval.

(** X6. The chunked detector returns the same records whatever the
    order of the rows in the group. *)
Theorem chunked_order_independent (group group' : list A) :
  group ≡ₚ group' →
  Chunked.detect_outliers total_paid group
  ≡ₚ Chunked.detect_outliers total_paid group'.
Proof.
  intros Hperm. unfold Chunked.detect_outliers.
  rewrite (Permutation_length Hperm).
  destruct (length group' <? 4)%nat; [reflexivity|].
  change (Chunked.upper_bound total_paid group)
    with (upper_fence (map total_paid group)).
  change (Chunked.upper_bound total_paid group')
    with (upper_fence (map total_paid group')).
  rewrite (upper_fence_perm (map total_paid group) (map total_paid group'))
    by (by apply Permutation_map).
  by rewrite Hperm.
Qed.

End ChunkedDetector.

(** ** The driver on well-formed input *)

Section DriverReturns.

Variable to_numeric : string → fval.

Lemma well_formed_other_fields (r r' : row) :
  (∀ k, k ≠ "OUTLIER_REASONS" → r' !! k = r !! k) →
  well_formed r → well_formed r'.
Proof.
  intros H. unfold well_formed, has_numeric_fields.
  by rewrite !H by discriminate.
Qed.

Lemma row_key_well_formed (r : row) :
  well_formed r → ∃ key, row_key r = Ok key.
Proof.
  intros ([code Hc] & [month Hm] & _). unfold row_key. rewrite Hc, Hm. eauto.
Qed.

Lemma collect_returns (h : heap) (st : driver) :
  Forall (λ l, well_formed (h l)) (current_group_rows st) →
  ∃ (h' : heap) (st' : driver),
    collect to_numeric h st = Ok (h', st')
    ∧ current_group_rows st' = current_group_rows st.
Proof.
  intros Hwf. rewrite collect_spec.
  destruct (detect_outliers_returns to_numeric h (current_group_rows st))
    as (h' & out & Hrun).
  { destruct (current_group_rows st) as [|l rest] eqn:Hrows; [left; cbn; lia|].
    right. apply numeric_columns_intro; [done|].
    eapply Forall_impl; [|exact Hwf]. by intros ? (_ & _ & ?). }
  rewrite Hrun, bind_Ok. eauto.
Qed.

Lemma step_returns (h : heap) (st : driver) (r : loc) :
  Forall (λ l, well_formed (h l)) (current_group_rows st) →
  well_formed (h r) →
  ∃ (h' : heap) (st' : driver),
    step to_numeric h st r = Ok (h', st')
    ∧ Forall (λ l, well_formed (h l)) (current_group_rows st').
Proof.
  intros Hwf Hr. unfold step.
  destruct (row_key_well_formed _ Hr) as [key ->]. rewrite bind_Ok.
  destruct (bool_decide (Some key ≠ current_key st)
            && bool_decide (current_group_rows st ≠ [])).
  - destruct (collect_returns h st Hwf) as (h1 & st1 & -> & _).
    rewrite !bind_Ok. eexists _, _. split; [reflexivity|].
    cbn. apply Forall_cons_2; [exact Hr|apply Forall_nil_2].
  - rewrite !bind_Ok. eexists _, _. split; [reflexivity|].
    cbn. apply Forall_app. split; [exact Hwf|].
    apply Forall_cons_2; [exact Hr|apply Forall_nil_2].
Qed.

Lemma loop_returns (reader : list loc) (h0 h : heap) (st : driver) :
  (∀ l k, k ≠ "OUTLIER_REASONS" → h l !! k = h0 l !! k) →
  Forall (λ l, well_formed (h0 l)) (current_group_rows st) →
  Forall (λ l, well_formed (h0 l)) reader →
  ∃ (h' : heap) (st' : driver),
    loop to_numeric h st reader = Ok (h', st')
    ∧ (∀ l k, k ≠ "OUTLIER_REASONS" → h' l !! k = h0 l !! k)
    ∧ Forall (λ l, well_formed (h0 l)) (current_group_rows st').
Proof.
  revert h st. induction reader as [|r reader IH]; intros h st Hsame Hwf Hrest.
  { exists h, st. done. }
  inversion Hrest as [|? ? Hr Hreader]; subst. cbn [loop].
  assert (Hhere : ∀ l, well_formed (h0 l) → well_formed (h l)).
  { intros l. apply well_formed_other_fields. apply Hsame. }
  destruct (step_returns h st r) as (h1 & st1 & Hstep & Hwf1).
  { eapply Forall_impl; [|exact Hwf]. exact Hhere. }
  { by apply Hhere. }
  rewrite Hstep, bind_Ok.
  assert (Hsame1 : ∀ l k, k ≠ "OUTLIER_REASONS" → h1 l !! k = h0 l !! k).
  { intros l k Hk. rewrite <- (Hsame l k Hk).
    by eapply step_other_fields. }
  apply IH; [exact Hsame1| |exact Hreader].
  eapply Forall_impl; [|exact Hwf1]. intros l.
  apply well_formed_other_fields. intros k Hk. by rewrite Hsame.
Qed.

(** On an input whose rows all carry the two grouping keys and the
    three numeric fields, the loop and the final flush raise nothing. *)
Lemma run_returns (h : heap) (reader : list loc) :
  Forall (λ l, well_formed (h l)) reader →
  ∃ (h' : heap) (st : driver), run to_numeric h reader = Ok (h', st).
Proof.
  intros Hwf. unfold run.
  destruct (loop_returns reader h h initial) as (h1 & st1 & -> & Hsame & Hwf1);
    [done|constructor|exact Hwf|].
  rewrite bind_Ok. unfold final_group.
  destruct (bool_decide (current_group_rows st1 ≠ [])).
  - destruct (collect_returns h1 st1) as (h2 & st2 & -> & _).
    { eapply Forall_impl; [|exact Hwf1]. intros l.
      apply well_formed_other_fields. intros k Hk. by rewrite Hsame. }
    eauto.
  - eauto.
Qed.

Lemma run_other_fields (h h' : heap) (reader : list loc) (st : driver) :
  run to_numeric h reader = Ok (h', st) →
  ∀ l k, k ≠ "OUTLIER_REASONS" → h' l !! k = h l !! k.
Proof.
  unfold run.
  destruct (loop to_numeric h initial reader) as [[h0 st0]|e] eqn:Hloop;
    [|discriminate].
  rewrite bind_Ok. intros Hfinal l k Hk.
  rewrite (final_group_other_fields _ _ _ _ _ Hfinal l k Hk).
  by eapply loop_other_fields.
Qed.

Lemma run_counts (h h' : heap) (reader : list loc) (st : driver) :
  run to_numeric h reader = Ok (h', st) →
  total_outliers st = length (outlier_rows st).
Proof.
  unfold run.
  destruct (loop to_numeric h initial reader) as [[h0 st0]|e] eqn:Hloop;
    [|discriminate].
  rewrite bind_Ok. intros Hfinal.
  destruct (loop_counts _ _ _ _ _ _ Hloop eq_refl) as [Hinv _].
  unfold final_group in Hfinal.
  destruct (bool_decide (current_group_rows st0 ≠ [])).
  - by eapply collect_counts.
  - by injection Hfinal as <- <-.
Qed.

Lemma mapM_Forall {A B : Type} (f : A → result B) (g : A → B) (l : list A) :
  Forall (λ x, f x = Ok (g x)) l → mapM f l = Ok (map g l).
Proof.
  induction 1 as [|x l Hx _ IH]; [reflexivity|].
  cbn. rewrite Hx. cbn. rewrite IH. reflexivity.
Qed.

(** The writer takes a dictionary whose keys are all field names. *)
Lemma dict_to_list_returns (fieldnames : list string) (rowdict : row) :
  (∀ k, is_Some (rowdict !! k) → k ∈ fieldnames) →
  dict_to_list fieldnames rowdict
  = Ok (map (λ key, default "" (rowdict !! key)) fieldnames).
Proof.
  intros Hkeys. unfold dict_to_list.
  rewrite bool_decide_eq_true_2; [reflexivity|].
  intros k Hk. apply elem_of_dom in Hk. apply elem_of_list_to_set. by apply Hkeys.
Qed.

(** X7. An empty input file has no header and [main] (here
    [main_csv]) stops with a [TypeError] before it reads a row.  On an input whose rows all
    carry the two grouping keys and the three numeric fields, under a
    header that names every key of every record, [main] returns:
    unreadable numbers, zero counts and small groups raise nothing,
    and the writer accepts every outlier row.  The file is written
    exactly when there is an outlier; its header is the input's with
    [OUTLIER_REASONS] appended, and it holds one line per outlier row,
    the cells in header order. *)
Theorem main_csv_returns (names : list string) (h : heap) (reader : list loc) :
  Forall (λ l, well_formed (h l)) reader →
  (∀ l k, is_Some (h l !! k) → k ∈ names) →
  main_csv to_numeric None h reader = Raise TypeError
  ∧ ∃ (h' : heap) (rep : report) (out : option csv_output),
      main_csv to_numeric (Some names) h reader = Ok (h', rep, out)
      ∧ main to_numeric h reader = Ok (h', rep)
      ∧ (out = None ↔ outliers_found rep = 0)
      ∧ ∀ file, out = Some file →
          header file = names ++ ["OUTLIER_REASONS"]
          ∧ length (lines file) = outliers_found rep
          ∧ ∃ rows, written rep = Some rows
                    ∧ lines file
                      = map (λ r, map (λ key, default "" (r !! key)) (header file))
                          rows.
Proof.
  intros Hwf Hkeys. split; [reflexivity|].
  destruct (run_returns h reader Hwf) as (h' & st & Hrun).
  pose proof (run_other_fields _ _ _ _ Hrun) as Hsame.
  pose proof (run_counts _ _ _ _ Hrun) as Hcount.
  unfold main_csv, main, output_fieldnames. rewrite Hrun, !bind_Ok. cbn [written].
  destruct (total_outliers st =? 0)%nat eqn:Hzero.
  - apply Nat.eqb_eq in Hzero. eexists _, _, _. split; [reflexivity|].
    split; [reflexivity|]. cbn. split; [done|]. discriminate.
  - apply Nat.eqb_neq in Hzero.
    rewrite (mapM_Forall _
               (λ r, map (λ key, default "" (r !! key))
                       (names ++ ["OUTLIER_REASONS"]))).
    2:{ apply list.Forall_forall. intros r Hr.
        apply list_elem_of_fmap in Hr as (l & -> & _).
        apply dict_to_list_returns. intros k Hk.
        apply elem_of_app.
        destruct (decide (k = "OUTLIER_REASONS")) as [->|Hne].
        - right. by left.
        - left. apply (Hkeys l). by rewrite <- (Hsame l k Hne). }
    rewrite bind_Ok. eexists _, _, _. split; [reflexivity|].
    split; [reflexivity|]. cbn. split; [split; [discriminate|lia]|].
    intros file [= <-]. cbn. split; [reflexivity|].
    split; [by rewrite !length_map|].
    eexists. split; reflexivity.
Qed.

End DriverReturns.

Lemma claim_row_well_formed (code month paid benef claims : string) :
  well_formed (claim_row code month paid benef claims).
Proof.
  unfold well_formed, has_numeric_fields, claim_row.
  repeat split; eexists; by simplify_map_eq.
Qed.

Lemma claim_row_keys (r : row) (k : string) :
  (∃ code month paid benef claims, r = claim_row code month paid benef claims) →
  is_Some (r !! k) →
  k ∈ ["HCPCS_CODE"; "CLAIM_FROM_MONTH"; "TOTAL_PAID";
       "TOTAL_UNIQUE_BENEFICIARIES"; "TOTAL_CLAIMS"].
Proof.
  intros (code & month & paid & benef & claims & ->) [v Hk].
  unfold claim_row in Hk. rewrite !elem_of_cons.
  repeat (apply lookup_insert_Some in Hk as [[<- _]|[_ Hk]]; [tauto|]).
  by rewrite lookup_empty in Hk.
Qed.

(** ** The detector reads the numeric fields only *)

Section ReadsNumericFields.

Variable to_numeric : string → fval.

Lemma has_column_same (h h' : heap) (group_rows : list loc) (col : string) :
  (∀ l, h' l !! col = h l !! col) →
  has_column (DataFrame h' group_rows) col = has_column (DataFrame h group_rows) col.
Proof.
  intros Hsame. unfold has_column, DataFrame.
  induction group_rows as [|l rows IH]; [reflexivity|].
  cbn. by rewrite Hsame, IH.
Qed.

Lemma imap_coerce_same (h h' : heap) (group_rows : list loc) :
  (∀ l col, col ≠ "OUTLIER_REASONS" → h' l !! col = h l !! col) →
  imap (coerce_row to_numeric) (map h' group_rows)
  = imap (coerce_row to_numeric) (map h group_rows).
Proof.
  intros Hsame.
  change (map h' group_rows) with (h' <$> group_rows).
  change (map h group_rows) with (h <$> group_rows).
  rewrite !imap_fmap. apply imap_ext. intros i l _. cbn.
  unfold coerce_row, numeric_cell. by rewrite !Hsame by discriminate.
Qed.

(** Two stores that agree outside [OUTLIER_REASONS] give the same
    frames. *)
Lemma prepare_frames_other_fields (h h' : heap) (group_rows : list loc) :
  (∀ l col, col ≠ "OUTLIER_REASONS" → h' l !! col = h l !! col) →
  prepare_frames to_numeric h' group_rows = prepare_frames to_numeric h group_rows.
Proof.
  intros Hsame. unfold prepare_frames, coerce_numeric, require_column.
  rewrite !(has_column_same h h') by (intros l; apply Hsame; discriminate).
  pose proof (imap_coerce_same h h' group_rows Hsame) as Himap.
  unfold coerce_row in Himap. unfold DataFrame. by rewrite Himap.
Qed.

End ReadsNumericFields.

(** ** Instances of the further properties *)

Lemma run_by_groups_witness :
  run parse_number (heap_of ex_fragmented) (seq 0 18) =
    detect_groups parse_number (heap_of ex_fragmented)
      [seq 0 6; seq 6 6; seq 12 6] ≫= λ '(h', outliers),
      Ok (h', {| outlier_rows := outliers;
                 current_group_rows := seq 12 6;
                 current_key := Some ("A", "2024-01");
                 total_outliers := length outliers;
                 total_rows_processed := 18 |}).
Proof.
  apply (run_by_groups parse_number (heap_of ex_fragmented)
           [(("A", "2024-01"), seq 0 6); (("B", "2024-01"), seq 6 6);
            (("A", "2024-01"), seq 12 6)]).
  - repeat (apply Forall_cons_2 || apply Forall_nil_2);
      (split; [discriminate | repeat constructor]).
  - cbn. repeat split; discriminate.
Defined.

Lemma main_csv_returns_witness :
  ∃ (h' : heap) (rep : report) (out : option csv_output),
    main_csv parse_number
      (Some ["HCPCS_CODE"; "CLAIM_FROM_MONTH"; "TOTAL_PAID";
             "TOTAL_UNIQUE_BENEFICIARIES"; "TOTAL_CLAIMS"])
      (heap_of ex_mixed) (seq 0 7) = Ok (h', rep, out).
Proof.
  destruct (main_csv_returns parse_number
              ["HCPCS_CODE"; "CLAIM_FROM_MONTH"; "TOTAL_PAID";
               "TOTAL_UNIQUE_BENEFICIARIES"; "TOTAL_CLAIMS"]
              (heap_of ex_mixed) (seq 0 7))
    as (_ & h' & rep & out & Hmain & _).
  - repeat (apply Forall_cons_2; [apply claim_row_well_formed|]).
    apply Forall_nil_2.
  - intros l k Hk. unfold heap_of in Hk.
    destruct (ex_mixed !! l) as [r|] eqn:Hl; cbn in Hk.
    + apply claim_row_keys with (r := r); [|exact Hk].
      apply list_elem_of_lookup_2 in Hl. revert Hl. unfold ex_mixed.
      rewrite !elem_of_cons, elem_of_nil.
      intros [->|[->|[->|[->|[->|[->|[->|[]]]]]]]]; eauto 6.
    + rewrite lookup_empty in Hk. by destruct Hk.
  - eauto.
Defined.


Lemma main_missing_key_witness :
  main parse_number (heap_of ex_no_code) (seq 0 7)
  = Raise (KeyError "HCPCS_CODE").
Proof.
  assert (Hloop : loop parse_number (heap_of ex_no_code) initial (seq 0 6)
                  = Ok (heap_of ex_no_code,
                        buffered initial ("A", "2024-01") (seq 0 6))).
  { rewrite (loop_new_group parse_number (seq 0 6) ("A", "2024-01"));
      [|discriminate|repeat constructor|discriminate].
    unfold final_group. cbn [current_group_rows initial].
    rewrite bool_decide_eq_false_2 by (intros H; by apply H).
    reflexivity. }
  apply (main_missing_key parse_number (heap_of ex_no_code) _ _
           (seq 0 6) [] 6 (KeyError "HCPCS_CODE") Hloop).
  reflexivity.
Defined.

Lemma chunked_order_independent_witness :
  Chunked.detect_outliers (λ v : fval, v) six_payments
  ≡ₚ Chunked.detect_outliers (λ v : fval, v) (rev six_payments).
Proof.
  apply chunked_order_independent. apply Permutation_rev.
Defined.

Lemma final_group_flushed_witness :
  ∃ (h2 : heap) (st : driver),
    run parse_number (heap_of ex_two_groups) (seq 0 12) = Ok (h2, st)
    ∧ outlier_rows st = [5; 11]
    ∧ total_outliers st = 2.
Proof.
  set (h := heap_of ex_two_groups).
  assert (Hprep0 : prepare_frames parse_number h (seq 0 6)
                   = Ok (Some (frame_df parse_number h (seq 0 6),
                               frame_clean parse_number h (seq 0 6))))
    by (vm_compute; reflexivity).
  destruct (detect_outliers_flagged _ _ _ _ _ Hprep0) as (h1 & Hfirst & _).
  assert (Hrefs0 : flagged_refs (compute_bounds (frame_clean parse_number h (seq 0 6)))
                     (seq 0 6) (frame_df parse_number h (seq 0 6)) = [5])
    by (vm_compute; reflexivity).
  rewrite Hrefs0 in Hfirst.
  set (st1 := extend (buffered initial ("A", "2024-01") (seq 0 6)) [5]).
  assert (Hrun : run parse_number h (seq 0 6) = Ok (h1, st1)).
  { unfold run.
    rewrite (loop_new_group parse_number (seq 0 6) ("A", "2024-01"));
      [|discriminate|repeat constructor|discriminate].
    unfold final_group at 2. cbn [current_group_rows initial].
    rewrite bool_decide_eq_false_2 by (intros H; by apply H).
    rewrite !bind_Ok. unfold final_group. cbn [current_group_rows buffered].
    rewrite bool_decide_eq_true_2 by discriminate.
    rewrite collect_spec. cbn [current_group_rows buffered].
    rewrite Hfirst. reflexivity. }
  assert (Hkeys : Forall (λ l, row_key (h l) = Ok ("B", "2024-01")) (seq 6 6))
    by (repeat constructor).
  destruct (final_group_flushed parse_number h h1 (seq 0 6) (seq 6 6) st1
              ("B", "2024-01") Hrun) as [Hflush _];
    [discriminate | exact Hkeys | discriminate |].
  change (seq 0 6 ++ seq 6 6) with (seq 0 12) in Hflush.
  assert (Hfields : ∀ l k, k ≠ "OUTLIER_REASONS" → h1 l !! k = h l !! k)
    by (eapply detect_outliers_other_fields; exact Hfirst).
  assert (Hprep : prepare_frames parse_number h1 (seq 6 6)
                  = Ok (Some (frame_df parse_number h (seq 6 6),
                              frame_clean parse_number h (seq 6 6)))).
  { rewrite (prepare_frames_other_fields parse_number h h1 (seq 6 6) Hfields).
    vm_compute. reflexivity. }
  destruct (detect_outliers_flagged _ _ _ _ _ Hprep) as (h2 & Hdetect & _).
  assert (Hrefs : flagged_refs (compute_bounds (frame_clean parse_number h (seq 6 6)))
                    (seq 6 6) (frame_df parse_number h (seq 6 6)) = [11])
    by (vm_compute; reflexivity).
  rewrite Hrefs in Hdetect. rewrite Hdetect in Hflush.
  exists h2, (extend (buffered st1 ("B", "2024-01") (seq 6 6)) [11]).
  split; [exact Hflush|]. split; reflexivity.
Defined.
